(** * Transcription orchestration of whisper-ui: a shallow embedding

    The domain entities ([Transcription], [AudioFile]), the repositories,
    the local file storage and the use cases Transcribe, Retranscribe,
    Enhance, DeleteTranscription, GetTranscription, GetTranscriptionHistory,
    GetAudioFileTranscriptions and DeleteAudioFile are embedded as Rocq
    functions.
    Python exceptions are modelled by [result]; the effects of the use cases
    (database rows, files on disk, calls made to the LLM port) by a state
    and exception monad over [World], in which an exception does not roll
    back the effects performed before it (as in Python). *)

From Stdlib Require Import String Ascii List ZArith QArith Bool Lia Sorted Permutation.
Import ListNotations.
Open Scope string_scope.

(** ** Python exceptions and the [str] helpers *)

Inductive ExnKind : Type :=
| ValueError
| RepositoryException
| ServiceException
| OtherException.

Record Exn : Type := mkExn { exn_kind : ExnKind; exn_msg : string }.

(** [str(e)] of an exception is its message. *)
Definition str (e : Exn) : string := exn_msg e.

Inductive result (A : Type) : Type :=
| Ok (a : A)
| Raise (e : Exn).
Arguments Ok {A} a.
Arguments Raise {A} e.

(** Characters removed by Python's [str.strip()] (ASCII part of [str.isspace]). *)
Definition is_py_space (c : ascii) : bool :=
  let n := nat_of_ascii c in
  (Nat.leb 9 n && Nat.leb n 13) || (Nat.leb 28 n && Nat.leb n 32).

Fixpoint drop_space (l : list ascii) : list ascii :=
  match l with
  | [] => []
  | c :: l' => if is_py_space c then drop_space l' else l
  end.

(** [s.strip()] *)
Definition strip (s : string) : string :=
  string_of_list_ascii
    (rev (drop_space (rev (drop_space (list_ascii_of_string s))))).

(** Python truthiness of a [str]. *)
Definition truthy (s : string) : bool := negb (String.eqb s "").

(** ** Domain entity [Transcription] (src/domain/entities/transcription.py) *)

Inductive TranscriptionStatus : Type :=
| PENDING
| PROCESSING
| COMPLETED
| FAILED.

Definition status_eqb (a b : TranscriptionStatus) : bool :=
  match a, b with
  | PENDING, PENDING | PROCESSING, PROCESSING
  | COMPLETED, COMPLETED | FAILED, FAILED => true
  | _, _ => false
  end.

Definition opt_string_eqb (a b : option string) : bool :=
  match a, b with
  | None, None => true
  | Some x, Some y => String.eqb x y
  | _, _ => false
  end.

(** Datetimes are integers (the clock of the world); floats are rationals. *)
Record Transcription : Type := mkTranscription {
  id : string;
  audio_file_id : string;
  text : option string;
  status : TranscriptionStatus;
  language : option string;
  duration_seconds : Q;
  created_at : Z;
  completed_at : option Z;
  error_message : option string;
  model : option string;
  processing_time_seconds : option Q;
  enable_llm_enhancement : bool;
  enhanced_text : option string;
  llm_processing_time_seconds : option Q;
  llm_enhancement_status : option string;
  llm_error_message : option string;
  vad_filter_used : bool;
  enable_tashkeel : bool
}.

Definition NO_SPEECH : string := "(No speech detected)".

Definition value_error {A} (msg : string) : result A := Raise (mkExn ValueError msg).

(** [mark_as_processing] *)
Definition mark_as_processing (t : Transcription) : result Transcription :=
  if negb (status_eqb (status t) PENDING) then
    value_error "Cannot process transcription: only PENDING transcriptions can be marked as PROCESSING."
  else Ok {| id := id t; audio_file_id := audio_file_id t; text := text t;
             status := PROCESSING; language := language t;
             duration_seconds := duration_seconds t; created_at := created_at t;
             completed_at := completed_at t; error_message := error_message t;
             model := model t; processing_time_seconds := processing_time_seconds t;
             enable_llm_enhancement := enable_llm_enhancement t;
             enhanced_text := enhanced_text t;
             llm_processing_time_seconds := llm_processing_time_seconds t;
             llm_enhancement_status := llm_enhancement_status t;
             llm_error_message := llm_error_message t;
             vad_filter_used := vad_filter_used t; enable_tashkeel := enable_tashkeel t |}.

(** [complete(text, language, duration=None, processing_time=None)];
    [now] is [datetime.utcnow()]. *)
Definition complete (now : Z) (t : Transcription) (txt : string) (lang : option string)
    (duration : option Q) (processing_time : option Q) : result Transcription :=
  if negb (status_eqb (status t) PROCESSING) then
    value_error "Cannot complete transcription: only PROCESSING transcriptions can be completed."
  else
    let new_text := if truthy txt && truthy (strip txt) then strip txt else NO_SPEECH in
    Ok {| id := id t; audio_file_id := audio_file_id t; text := Some new_text;
          status := COMPLETED; language := lang;
          duration_seconds := match duration with Some d => d | None => duration_seconds t end;
          created_at := created_at t;
          completed_at := Some now; error_message := None;
          model := model t;
          processing_time_seconds :=
            match processing_time with Some p => Some p | None => processing_time_seconds t end;
          enable_llm_enhancement := enable_llm_enhancement t;
          enhanced_text := enhanced_text t;
          llm_processing_time_seconds := llm_processing_time_seconds t;
          llm_enhancement_status := llm_enhancement_status t;
          llm_error_message := llm_error_message t;
          vad_filter_used := vad_filter_used t; enable_tashkeel := enable_tashkeel t |}.

(** [fail(error_message)] *)
Definition fail (now : Z) (t : Transcription) (msg : string) : result Transcription :=
  if negb (truthy msg) || negb (truthy (strip msg)) then
    value_error "Error message cannot be empty"
  else
    Ok {| id := id t; audio_file_id := audio_file_id t; text := text t;
          status := FAILED; language := language t;
          duration_seconds := duration_seconds t; created_at := created_at t;
          completed_at := Some now; error_message := Some (strip msg);
          model := model t; processing_time_seconds := processing_time_seconds t;
          enable_llm_enhancement := enable_llm_enhancement t;
          enhanced_text := enhanced_text t;
          llm_processing_time_seconds := llm_processing_time_seconds t;
          llm_enhancement_status := llm_enhancement_status t;
          llm_error_message := llm_error_message t;
          vad_filter_used := vad_filter_used t; enable_tashkeel := enable_tashkeel t |}.

(** [can_be_enhanced()] *)
Definition can_be_enhanced (t : Transcription) : bool :=
  enable_llm_enhancement t &&
  status_eqb (status t) COMPLETED &&
  match text t with
  | None => false
  | Some s => negb (String.eqb (strip s) "") && negb (String.eqb s NO_SPEECH)
  end &&
  (opt_string_eqb (llm_enhancement_status t) None ||
   opt_string_eqb (llm_enhancement_status t) (Some "failed")).

(** [mark_llm_processing()] (the message is abridged: the source appends
    the values of the guarded fields) *)
Definition mark_llm_processing (t : Transcription) : result Transcription :=
  if negb (can_be_enhanced t) then
    value_error "Transcription cannot be enhanced."
  else Ok {| id := id t; audio_file_id := audio_file_id t; text := text t;
             status := status t; language := language t;
             duration_seconds := duration_seconds t; created_at := created_at t;
             completed_at := completed_at t; error_message := error_message t;
             model := model t; processing_time_seconds := processing_time_seconds t;
             enable_llm_enhancement := enable_llm_enhancement t;
             enhanced_text := enhanced_text t;
             llm_processing_time_seconds := llm_processing_time_seconds t;
             llm_enhancement_status := Some "processing";
             llm_error_message := llm_error_message t;
             vad_filter_used := vad_filter_used t; enable_tashkeel := enable_tashkeel t |}.

(** [complete_llm_enhancement(enhanced_text, processing_time)] *)
Definition complete_llm_enhancement (t : Transcription) (etext : string) (pt : Q)
    : result Transcription :=
  if negb (opt_string_eqb (llm_enhancement_status t) (Some "processing")) then
    value_error "Cannot complete LLM enhancement: only 'processing' enhancements can be completed."
  else if negb (truthy etext) || negb (truthy (strip etext)) then
    value_error "Enhanced text cannot be empty"
  else Ok {| id := id t; audio_file_id := audio_file_id t; text := text t;
             status := status t; language := language t;
             duration_seconds := duration_seconds t; created_at := created_at t;
             completed_at := completed_at t; error_message := error_message t;
             model := model t; processing_time_seconds := processing_time_seconds t;
             enable_llm_enhancement := enable_llm_enhancement t;
             enhanced_text := Some (strip etext);
             llm_processing_time_seconds := Some pt;
             llm_enhancement_status := Some "completed";
             llm_error_message := None;
             vad_filter_used := vad_filter_used t; enable_tashkeel := enable_tashkeel t |}.

(** [fail_llm_enhancement(error_message)] *)
Definition fail_llm_enhancement (t : Transcription) (msg : string) : result Transcription :=
  if negb (truthy msg) || negb (truthy (strip msg)) then
    value_error "Error message cannot be empty"
  else Ok {| id := id t; audio_file_id := audio_file_id t; text := text t;
             status := status t; language := language t;
             duration_seconds := duration_seconds t; created_at := created_at t;
             completed_at := completed_at t; error_message := error_message t;
             model := model t; processing_time_seconds := processing_time_seconds t;
             enable_llm_enhancement := enable_llm_enhancement t;
             enhanced_text := enhanced_text t;
             llm_processing_time_seconds := llm_processing_time_seconds t;
             llm_enhancement_status := Some "failed";
             llm_error_message := Some (strip msg);
             vad_filter_used := vad_filter_used t; enable_tashkeel := enable_tashkeel t |}.

(** [is_completed()], [is_failed()], [is_in_progress()], [is_pending()] *)
Definition is_completed (t : Transcription) : bool := status_eqb (status t) COMPLETED.
Definition is_failed (t : Transcription) : bool := status_eqb (status t) FAILED.
Definition is_in_progress (t : Transcription) : bool := status_eqb (status t) PROCESSING.
Definition is_pending (t : Transcription) : bool := status_eqb (status t) PENDING.

(** [can_be_deleted()]: [status in [COMPLETED, FAILED, PENDING]] *)
Definition can_be_deleted (t : Transcription) : bool :=
  existsb (status_eqb (status t)) [COMPLETED; FAILED; PENDING].

(** [is_llm_enhanced()] *)
Definition is_llm_enhanced (t : Transcription) : bool :=
  opt_string_eqb (llm_enhancement_status t) (Some "completed") &&
  match enhanced_text t with Some _ => true | None => false end.

(** ** Domain entity [AudioFile] (src/domain/entities/audio_file.py) *)

Record AudioFile : Type := mkAudioFile {
  af_id : string;
  af_original_filename : string;
  af_file_path : string;
  af_file_size_bytes : Z;
  af_mime_type : string;
  af_duration_seconds : option Q;
  af_uploaded_at : Z
}.

Definition SUPPORTED_AUDIO_TYPES : list string :=
  ["audio/mpeg"; "audio/mp3"; "audio/wav"; "audio/x-wav"; "audio/wave";
   "audio/mp4"; "audio/x-m4a"; "audio/m4a"; "audio/ogg"; "audio/flac";
   "audio/x-flac"; "audio/webm"].

Definition set_file_path (a : AudioFile) (p : string) : AudioFile :=
  mkAudioFile (af_id a) (af_original_filename a) p (af_file_size_bytes a)
    (af_mime_type a) (af_duration_seconds a) (af_uploaded_at a).

Definition set_duration (a : AudioFile) (d : option Q) : AudioFile :=
  mkAudioFile (af_id a) (af_original_filename a) (af_file_path a) (af_file_size_bytes a)
    (af_mime_type a) d (af_uploaded_at a).

(** [validate_file_type()] *)
Definition validate_file_type (a : AudioFile) : result bool :=
  if existsb (String.eqb (af_mime_type a)) SUPPORTED_AUDIO_TYPES then Ok true
  else value_error "Unsupported file type".

(** [validate_file_size(max_size_mb)] *)
Definition validate_file_size (max_size_mb : Z) (a : AudioFile) : result bool :=
  let max_bytes := (max_size_mb * 1024 * 1024)%Z in
  if (af_file_size_bytes a <=? 0)%Z then value_error "File size must be greater than 0"
  else if (max_bytes <? af_file_size_bytes a)%Z then value_error "File size exceeds maximum allowed size"
  else Ok true.

(** [validate_duration(max_duration_seconds)] *)
Definition validate_duration (max_duration_seconds : Z) (a : AudioFile) : result bool :=
  match af_duration_seconds a with
  | None => value_error "Audio duration must be calculated before validation"
  | Some d =>
      if Qle_bool d 0 then value_error "Audio duration must be greater than 0"
      else if negb (Qle_bool d (inject_Z max_duration_seconds)) then
        value_error "Audio duration exceeds maximum allowed duration"
      else Ok true
  end.

(** [validate(max_size_mb, max_duration_seconds)] *)
Definition validate (max_size_mb max_duration_seconds : Z) (a : AudioFile) : result bool :=
  match validate_file_type a with
  | Raise e => Raise e
  | Ok _ =>
      match validate_file_size max_size_mb a with
      | Raise e => Raise e
      | Ok _ =>
          match af_duration_seconds a with
          | None => Ok true
          | Some _ =>
              match validate_duration max_duration_seconds a with
              | Raise e => Raise e
              | Ok _ => Ok true
              end
          end
      end
  end.

(** ** Data transfer objects (src/application/dto) *)

(** The upload request as built by the [POST /transcriptions] router and
    read by [TranscribeAudioUseCase.execute]. *)
Record AudioUploadDTO : Type := mkAudioUploadDTO {
  up_filename : string;
  up_file_content : list Byte.byte;
  up_file_size : Z;
  up_mime_type : string;
  up_language : option string;
  up_model : option string;
  up_enable_llm_enhancement : bool;
  up_vad_filter : bool;
  up_enable_tashkeel : bool
}.

Record TranscriptionDTO : Type := mkTranscriptionDTO {
  dto_id : string;
  dto_audio_file_id : string;
  dto_text : option string;
  dto_status : TranscriptionStatus;
  dto_language : option string;
  dto_duration_seconds : Q;
  dto_created_at : Z;
  dto_completed_at : option Z;
  dto_error_message : option string;
  dto_model : option string;
  dto_processing_time_seconds : option Q;
  dto_enable_llm_enhancement : bool;
  dto_enhanced_text : option string;
  dto_llm_processing_time_seconds : option Q;
  dto_llm_enhancement_status : option string;
  dto_llm_error_message : option string
}.

(** [TranscriptionDTO.from_entity] *)
Definition from_entity (t : Transcription) : TranscriptionDTO :=
  {| dto_id := id t; dto_audio_file_id := audio_file_id t; dto_text := text t;
     dto_status := status t; dto_language := language t;
     dto_duration_seconds := duration_seconds t; dto_created_at := created_at t;
     dto_completed_at := completed_at t; dto_error_message := error_message t;
     dto_model := model t; dto_processing_time_seconds := processing_time_seconds t;
     dto_enable_llm_enhancement := enable_llm_enhancement t;
     dto_enhanced_text := enhanced_text t;
     dto_llm_processing_time_seconds := llm_processing_time_seconds t;
     dto_llm_enhancement_status := llm_enhancement_status t;
     dto_llm_error_message := llm_error_message t |}.

(** ** The world: files on disk, database rows, clock, uuid source and the
    calls made to the LLM enhancement port *)

Record World : Type := mkWorld {
  files : list string;
  (** paths whose [os.remove] raises (e.g. permission denied) *)
  undeletable : list string;
  audio_rows : list AudioFile;
  trans_rows : list Transcription;
  clock : Z;
  seed : nat;
  (** arguments [(text, language, enable_tashkeel)] of every call of
      [LLMEnhancementService.enhance_transcription] *)
  llm_calls : list (option string * option string * bool)
}.

Definition set_files (w : World) (f : list string) : World :=
  mkWorld f (undeletable w) (audio_rows w) (trans_rows w) (clock w) (seed w) (llm_calls w).
Definition set_audio_rows (w : World) (r : list AudioFile) : World :=
  mkWorld (files w) (undeletable w) r (trans_rows w) (clock w) (seed w) (llm_calls w).
Definition set_trans_rows (w : World) (r : list Transcription) : World :=
  mkWorld (files w) (undeletable w) (audio_rows w) r (clock w) (seed w) (llm_calls w).
Definition set_seed (w : World) (n : nat) : World :=
  mkWorld (files w) (undeletable w) (audio_rows w) (trans_rows w) (clock w) n (llm_calls w).
Definition set_llm_calls (w : World) c : World :=
  mkWorld (files w) (undeletable w) (audio_rows w) (trans_rows w) (clock w) (seed w) c.

(** ** A state and exception monad; an exception keeps the state reached *)

Definition M (S A : Type) : Type := S -> result A * S.

Definition ret {S A} (a : A) : M S A := fun s => (Ok a, s).
Definition bind {S A B} (m : M S A) (f : A -> M S B) : M S B :=
  fun s => match m s with
           | (Ok a, s') => f a s'
           | (Raise e, s') => (Raise e, s')
           end.
Definition throw {S A} (e : Exn) : M S A := fun s => (Raise e, s).
Definition lift {S A} (r : result A) : M S A := fun s => (r, s).
Definition get {S} : M S S := fun s => (Ok s, s).
Definition put {S} (s : S) : M S unit := fun _ => (Ok tt, s).
(** [try: m except Exception as e: h(e)] *)
Definition try_except {S A} (m : M S A) (h : Exn -> M S A) : M S A :=
  fun s => match m s with
           | (Ok a, s') => (Ok a, s')
           | (Raise e, s') => h e s'
           end.

Notation "x <- m ;; k" := (bind m (fun x => k))
  (at level 61, m at next level, right associativity).
Notation "m ;;; k" := (bind m (fun _ => k))
  (at level 61, right associativity).

Definition modify_world (f : World -> World) : M World unit := fun w => (Ok tt, f w).

(** [datetime.utcnow()] *)
Definition now : M World Z := fun w => (Ok (clock w), w).

(** [str(uuid.uuid4())], drawn from the world's uuid source. *)
Definition fresh_uuid (uuid4 : nat -> string) : M World string :=
  fun w => (Ok (uuid4 (seed w)), set_seed w (S (seed w))).

Definition mem (p : string) (l : list string) : bool := existsb (String.eqb p) l.

(** ** Local file storage (src/infrastructure/storage/local_file_storage.py) *)

(** [save(file_content, file_id, filename)]: writes the file at the path
    computed from the id and the filename's extension. *)
Definition storage_save (storage_path : string -> string -> string)
    (content : list Byte.byte) (file_id filename : string) : M World string :=
  let p := storage_path file_id filename in
  fun w => (Ok p, set_files w (if mem p (files w) then files w else p :: files w)).

(** [exists(file_path)] *)
Definition storage_exists (p : string) : M World bool := fun w => (Ok (mem p (files w)), w).

(** [delete(file_path)]: [False] when the file is absent; [os.remove] failing
    is turned into a [ServiceException]. *)
Definition storage_delete (p : string) : M World bool :=
  fun w =>
    if negb (mem p (files w)) then (Ok false, w)
    else if mem p (undeletable w) then
      (Raise (mkExn ServiceException "Failed to delete file"), w)
    else (Ok true, set_files w (filter (fun q => negb (String.eqb q p)) (files w))).

(** ** SQLite repositories (src/infrastructure/persistence/repositories) *)

(** [_to_model] followed by [_to_entity]: the table has no column for
    [vad_filter_used] and [enable_tashkeel], so they come back as defaults. *)
Definition to_row (t : Transcription) : Transcription :=
  {| id := id t; audio_file_id := audio_file_id t; text := text t;
     status := status t; language := language t;
     duration_seconds := duration_seconds t; created_at := created_at t;
     completed_at := completed_at t; error_message := error_message t;
     model := model t; processing_time_seconds := processing_time_seconds t;
     enable_llm_enhancement := enable_llm_enhancement t;
     enhanced_text := enhanced_text t;
     llm_processing_time_seconds := llm_processing_time_seconds t;
     llm_enhancement_status := llm_enhancement_status t;
     llm_error_message := llm_error_message t;
     vad_filter_used := false; enable_tashkeel := false |}.

(** [SQLiteAudioFileRepository.create]: a duplicate primary key, or a
    [file_path] some row already has ([unique=True] in audio_file_model.py),
    is an integrity error, re-raised as [RepositoryException]. *)
Definition audio_create (a : AudioFile) : M World AudioFile :=
  fun w =>
    if existsb (fun r => String.eqb (af_id r) (af_id a) ||
                         String.eqb (af_file_path r) (af_file_path a)) (audio_rows w) then
      (Raise (mkExn RepositoryException "Failed to create audio file"), w)
    else (Ok a, set_audio_rows w (audio_rows w ++ [a])).

(** [SQLiteAudioFileRepository.get_by_id] *)
Definition audio_get_by_id (aid : string) : M World (option AudioFile) :=
  fun w => (Ok (find (fun r => String.eqb (af_id r) aid) (audio_rows w)), w).

(** [SQLiteAudioFileRepository.delete]: a bulk [query.delete()]. *)
Definition audio_delete (aid : string) : M World bool :=
  fun w =>
    let keep := filter (fun r => negb (String.eqb (af_id r) aid)) (audio_rows w) in
    (Ok (Nat.ltb (length keep) (length (audio_rows w))), set_audio_rows w keep).

(** [SQLiteTranscriptionRepository.create] *)
Definition trans_create (t : Transcription) : M World Transcription :=
  fun w =>
    if existsb (fun r => String.eqb (id r) (id t)) (trans_rows w) then
      (Raise (mkExn RepositoryException "Failed to create transcription"), w)
    else (Ok (to_row t), set_trans_rows w (trans_rows w ++ [to_row t])).

(** [SQLiteTranscriptionRepository.get_by_id] *)
Definition trans_get_by_id (tid : string) : M World (option Transcription) :=
  fun w => (Ok (find (fun r => String.eqb (id r) tid) (trans_rows w)), w).

(** [SQLiteTranscriptionRepository.update]: every column but [id],
    [audio_file_id], [created_at] and [model] is written. *)
Definition update_row (r t : Transcription) : Transcription :=
  {| id := id r; audio_file_id := audio_file_id r; text := text t;
     status := status t; language := language t;
     duration_seconds := duration_seconds t; created_at := created_at r;
     completed_at := completed_at t; error_message := error_message t;
     model := model r; processing_time_seconds := processing_time_seconds t;
     enable_llm_enhancement := enable_llm_enhancement t;
     enhanced_text := enhanced_text t;
     llm_processing_time_seconds := llm_processing_time_seconds t;
     llm_enhancement_status := llm_enhancement_status t;
     llm_error_message := llm_error_message t;
     vad_filter_used := false; enable_tashkeel := false |}.

Definition update_rows (t : Transcription) (rows : list Transcription) : list Transcription :=
  map (fun r' => if String.eqb (id r') (id t) then update_row r' t else r') rows.

Definition trans_update (t : Transcription) : M World Transcription :=
  fun w =>
    match find (fun r => String.eqb (id r) (id t)) (trans_rows w) with
    | None => (Raise (mkExn RepositoryException "Transcription not found"), w)
    | Some r => (Ok (update_row r t), set_trans_rows w (update_rows t (trans_rows w)))
    end.

(** [SQLiteTranscriptionRepository.delete] *)
Definition trans_delete (tid : string) : M World bool :=
  fun w =>
    let keep := filter (fun r => negb (String.eqb (id r) tid)) (trans_rows w) in
    (Ok (Nat.ltb (length keep) (length (trans_rows w))), set_trans_rows w keep).

(** [ORDER BY created_at DESC] (rows of equal [created_at] keep table order). *)
Fixpoint insert_desc (t : Transcription) (l : list Transcription) : list Transcription :=
  match l with
  | [] => [t]
  | r :: l' => if (created_at r <=? created_at t)%Z then t :: l else r :: insert_desc t l'
  end.

Fixpoint sort_created_desc (l : list Transcription) : list Transcription :=
  match l with
  | [] => []
  | t :: l' => insert_desc t (sort_created_desc l')
  end.

(** [SQLiteTranscriptionRepository.get_by_audio_file_id] *)
Definition trans_get_by_audio_file_id (aid : string) : M World (list Transcription) :=
  fun w =>
    (Ok (sort_created_desc (filter (fun r => String.eqb (audio_file_id r) aid) (trans_rows w))), w).

(** [SQLiteTranscriptionRepository.get_all(limit, offset)]:
    [ORDER BY created_at DESC LIMIT limit OFFSET offset]; the router passes
    [1 <= limit <= 100] and [offset >= 0]. *)
Definition trans_get_all (limit offset : nat) : M World (list Transcription) :=
  fun w => (Ok (firstn limit (skipn offset (sort_created_desc (trans_rows w)))), w).

(** ** Use cases, over the speech-recognition and LLM-enhancement ports *)

(** What [SpeechRecognitionService.transcribe] returns. *)
Record SpeechResult : Type := mkSpeechResult {
  sr_text : string;
  sr_language : string;
  sr_duration : option Q
}.

(** The local, mutable entity [saved_transcription] of a use case sits next to the world. *)
Definition on_world {A} (m : M World A) : M (World * Transcription) A :=
  fun '(w, t) => let '(r, w') := m w in (r, (w', t)).

Definition cur : M (World * Transcription) Transcription := fun '(w, t) => (Ok t, (w, t)).

(** A method call [saved_transcription.f(...)]: a method raises before it mutates. *)
Definition mutate (f : Transcription -> result Transcription) : M (World * Transcription) unit :=
  fun '(w, t) => match f t with
                 | Ok t' => (Ok tt, (w, t'))
                 | Raise e => (Raise e, (w, t))
                 end.

(** Runs a block on the local entity [t], returning its final value. *)
Definition with_entity (t : Transcription) (m : M (World * Transcription) unit)
    : M World Transcription :=
  fun w => match m (w, t) with
           | (Ok _, (w', t')) => (Ok t', w')
           | (Raise e, (w', _)) => (Raise e, w')
           end.

(** [x or y] on an optional string *)
Definition or_str (o : option string) (d : string) : string :=
  match o with Some s => if truthy s then s else d | None => d end.

Section UseCases.

(** [str(uuid.uuid4())] for each draw of the uuid source. *)
Variable uuid4 : nat -> string.
(** the path [LocalFileStorage.save] computes from a file id and a filename *)
Variable storage_path : string -> string -> string.
(** [SpeechRecognitionService.get_audio_duration(path)] *)
Variable get_audio_duration : string -> result Q.
(** [SpeechRecognitionService.transcribe(path, language, model, vad_filter)] *)
Variable speech_transcribe : string -> option string -> string -> bool -> result SpeechResult.
(** [LLMEnhancementService.enhance_transcription(text, language, enable_tashkeel)],
    its [enhanced_text] *)
Variable llm_enhance : option string -> option string -> bool -> result string.
(** wall-clock seconds measured by [time.time()] around a port call *)
Variable elapsed : Q.
(** [max_file_size_mb], [max_duration_seconds] of [TranscribeAudioUseCase] *)
Variable max_file_size_mb max_duration_seconds : Z.

(** A call of the LLM enhancement port, recorded in the world. *)
Definition call_llm (txt lang : option string) (tashkeel : bool) : M World string :=
  modify_world (fun w => set_llm_calls w (llm_calls w ++ [(txt, lang, tashkeel)]));;;
  lift (llm_enhance txt lang tashkeel).

(** Step 7.5 of Transcribe / step 5.5 of Retranscribe: the call passes
    [text] and [language] only, so [enable_tashkeel] takes its default [False]. *)
Definition enhance_block : M (World * Transcription) unit :=
  try_except
    (mutate mark_llm_processing;;;
     t <- cur;; on_world (trans_update t);;;
     t <- cur;;
     et <- on_world (call_llm (text t) (language t) false);;
     mutate (fun t => complete_llm_enhancement t et elapsed))
    (fun e => mutate (fun t => fail_llm_enhancement t (str e))).

(** Step 7 of [TranscribeAudioUseCase.execute]. *)
Definition transcribe_step7 (dto : AudioUploadDTO) (p : string) : M (World * Transcription) unit :=
  try_except
    (mutate mark_as_processing;;;
     t <- cur;; on_world (trans_update t);;;
     res <- on_world (lift (speech_transcribe p (up_language dto) (or_str (up_model dto) "base")
                                              (up_vad_filter dto)));;
     n <- on_world now;;
     mutate (fun t => complete n t (sr_text res) (Some (sr_language res)) None (Some elapsed));;;
     if up_enable_llm_enhancement dto then enhance_block else ret tt)
    (fun e => n <- on_world now;; mutate (fun t => fail n t (str e))).

(** Step 3.5, the [try] block: check the file, extract and validate the duration. *)
Definition duration_probe (af : AudioFile) (p : string) : M World AudioFile :=
  ex <- storage_exists p;;
  if negb ex then throw (mkExn ValueError ("File was not saved properly: " ++ p))
  else
    d <- lift (get_audio_duration p);;
    let af' := set_duration af (Some d) in
    lift (validate_duration max_duration_seconds af');;;
    ret af'.

(** Step 3.5, the [except ValueError] and [except Exception] clauses. *)
Definition duration_cleanup (p : string) (e : Exn) : M World AudioFile :=
  match exn_kind e with
  | ValueError => storage_delete p;;; throw e
  | _ => storage_delete p;;;
         throw (mkExn ValueError ("Failed to extract audio duration from " ++ p ++ ": " ++ str e))
  end.

(** Step 3.5: extract and validate the duration, deleting the file on error. *)
Definition extract_duration (af : AudioFile) (p : string) : M World AudioFile :=
  try_except (duration_probe af p) (duration_cleanup p).

(** Steps 7 to 9 of [TranscribeAudioUseCase.execute], once the PENDING
    transcription [saved] is persisted. *)
Definition transcribe_tail (dto : AudioUploadDTO) (p : string) (saved : Transcription)
    : M World TranscriptionDTO :=
  t <- with_entity saved (transcribe_step7 dto p);;
  final <- trans_update t;;
  ret (from_entity final).

(** [TranscribeAudioUseCase.execute(upload_dto)] *)
Definition transcribe_execute (dto : AudioUploadDTO) : M World TranscriptionDTO :=
  fid <- fresh_uuid uuid4;;
  n <- now;;
  let af0 := mkAudioFile fid (up_filename dto) "" (up_file_size dto) (up_mime_type dto) None n in
  lift (validate_file_type af0);;;
  lift (validate_file_size max_file_size_mb af0);;;
  p <- storage_save storage_path (up_file_content dto) fid (up_filename dto);;
  af <- extract_duration (set_file_path af0 p) p;;
  saved_af <- audio_create af;;
  tid <- fresh_uuid uuid4;;
  n <- now;;
  let t0 := {| id := tid; audio_file_id := af_id saved_af; text := None;
               status := PENDING; language := up_language dto;
               duration_seconds := match af_duration_seconds saved_af with
                                   | Some d => if Qeq_bool d 0 then 0 else d
                                   | None => 0 end;
               created_at := n; completed_at := None; error_message := None;
               model := Some (or_str (up_model dto) "base");
               processing_time_seconds := None;
               enable_llm_enhancement := up_enable_llm_enhancement dto;
               enhanced_text := None; llm_processing_time_seconds := None;
               llm_enhancement_status := None; llm_error_message := None;
               vad_filter_used := up_vad_filter dto; enable_tashkeel := false |} in
  saved <- trans_create t0;;
  transcribe_tail dto p saved.

(** Step 5 of [RetranscribeAudioUseCase.execute]. *)
Definition retranscribe_step5 (af : AudioFile) (mdl : string) (lang : option string)
    (enable_llm : bool) : M (World * Transcription) unit :=
  try_except
    (mutate mark_as_processing;;;
     t <- cur;; on_world (trans_update t);;;
     res <- on_world (lift (speech_transcribe (af_file_path af) lang mdl false));;
     n <- on_world now;;
     let dur := match sr_duration res with
                | Some d => if Qeq_bool d 0 then
                              match af_duration_seconds af with
                              | Some d' => if Qeq_bool d' 0 then 0 else d'
                              | None => 0 end
                            else d
                | None => match af_duration_seconds af with
                          | Some d' => if Qeq_bool d' 0 then 0 else d'
                          | None => 0 end
                end in
     mutate (fun t => complete n t (sr_text res) (Some (sr_language res)) (Some dur) (Some elapsed));;;
     if enable_llm then enhance_block else ret tt)
    (fun e => n <- on_world now;; mutate (fun t => fail n t (str e))).

(** The loop of step 2: the first COMPLETED transcription made with [mdl]. *)
Definition find_completed (mdl : string) (l : list Transcription) : option Transcription :=
  find (fun t => opt_string_eqb (model t) (Some mdl) && status_eqb (status t) COMPLETED) l.

(** [RetranscribeAudioUseCase.execute(audio_file_id, model, language, enable_llm_enhancement)] *)
Definition retranscribe_execute (aid mdl : string) (lang : option string) (enable_llm : bool)
    : M World TranscriptionDTO :=
  o <- audio_get_by_id aid;;
  match o with
  | None => throw (mkExn ValueError ("Audio file " ++ aid ++ " not found"))
  | Some af =>
      existing <- trans_get_by_audio_file_id aid;;
      match find_completed mdl existing with
      | Some t => ret (from_entity t)
      | None =>
          tid <- fresh_uuid uuid4;;
          n <- now;;
          let t0 := {| id := tid; audio_file_id := af_id af; text := None;
                       status := PENDING; language := lang;
                       duration_seconds := match af_duration_seconds af with
                                           | Some d => if Qeq_bool d 0 then 0 else d
                                           | None => 0 end;
                       created_at := n; completed_at := None; error_message := None;
                       model := Some mdl; processing_time_seconds := None;
                       enable_llm_enhancement := enable_llm;
                       enhanced_text := None; llm_processing_time_seconds := None;
                       llm_enhancement_status := None; llm_error_message := None;
                       vad_filter_used := false; enable_tashkeel := false |} in
          saved <- trans_create t0;;
          t <- with_entity saved (retranscribe_step5 af mdl lang enable_llm);;
          final <- trans_update t;;
          ret (from_entity final)
      end
  end.

(** [EnhanceTranscriptionUseCase.execute(transcription_id)] *)
Definition enhance_execute (tid : string) : M World TranscriptionDTO :=
  o <- trans_get_by_id tid;;
  match o with
  | None => throw (mkExn ValueError ("Transcription " ++ tid ++ " not found"))
  | Some t =>
      if negb (can_be_enhanced t) then
        throw (mkExn ValueError "Transcription cannot be enhanced.")
      else
        t <- with_entity t
               (mutate mark_llm_processing;;;
                t <- cur;; on_world (trans_update t);;;
                try_except
                  (t <- cur;;
                   r <- on_world (call_llm (text t) (language t) false);;
                   mutate (fun t => complete_llm_enhancement t r elapsed))
                  (fun e => mutate (fun t => fail_llm_enhancement t (str e))));;
        final <- trans_update t;;
        ret (from_entity final)
  end.

(** [DeleteTranscriptionUseCase.execute(transcription_id)] *)
Definition delete_transcription_execute (tid : string) : M World bool :=
  o <- trans_get_by_id tid;;
  match o with
  | None => ret false
  | Some t =>
      all <- trans_get_by_audio_file_id (audio_file_id t);;
      success <- trans_delete tid;;
      if Nat.eqb (length all) 1 then
        oa <- audio_get_by_id (audio_file_id t);;
        match oa with
        | None => ret success
        | Some af =>
            (if truthy (af_file_path af) then
               try_except (storage_delete (af_file_path af);;; ret tt) (fun _ => ret tt)
             else ret tt);;;
            audio_delete (audio_file_id t);;;
            ret success
        end
      else ret success
  end.

(** A [TranscriptionDTO] with its denormalized fields
    [audio_file_original_filename] and [audio_file_uploaded_at]. *)
Record DenormDTO : Type := mkDenormDTO {
  dn_dto : TranscriptionDTO;
  dn_audio_file_original_filename : option string;
  dn_audio_file_uploaded_at : option Z
}.

(** [dto = TranscriptionDTO.from_entity(t)] followed by
    [if audio_file: dto.audio_file_original_filename = ...; dto.audio_file_uploaded_at = ...]
    (an [AudioFile] dataclass instance is always truthy). *)
Definition populate (t : Transcription) (oa : option AudioFile) : DenormDTO :=
  match oa with
  | Some af => mkDenormDTO (from_entity t) (Some (af_original_filename af)) (Some (af_uploaded_at af))
  | None => mkDenormDTO (from_entity t) None None
  end.

(** [GetTranscriptionUseCase.execute(transcription_id)] *)
Definition get_transcription_execute (tid : string) : M World (option DenormDTO) :=
  o <- trans_get_by_id tid;;
  match o with
  | None => ret None
  | Some t =>
      oa <- audio_get_by_id (audio_file_id t);;
      ret (Some (populate t oa))
  end.

(** [audio_files_map.get(k)] on the dict as an association list. *)
Definition map_get (m : list (string * AudioFile)) (k : string) : option AudioFile :=
  match find (fun p => String.eqb (fst p) k) m with
  | Some p => Some (snd p)
  | None => None
  end.

(** The loop [for audio_file_id in audio_file_ids: ... audio_files_map[audio_file_id] = audio_file]. *)
Fixpoint fetch_audio_files (ids : list string) (m : list (string * AudioFile))
    : M World (list (string * AudioFile)) :=
  match ids with
  | [] => ret m
  | i :: ids' =>
      oa <- audio_get_by_id i;;
      fetch_audio_files ids' (match oa with Some af => m ++ [(i, af)] | None => m end)
  end.

(** [GetTranscriptionHistoryUseCase.execute(limit, offset)]; the set
    [{t.audio_file_id for t in transcriptions}] is the list without
    duplicates (its iteration order does not matter: its keys are distinct). *)
Definition get_history_execute (limit offset : nat) : M World (list DenormDTO) :=
  ts <- trans_get_all limit offset;;
  m <- fetch_audio_files (nodup string_dec (map audio_file_id ts)) [];;
  ret (map (fun t => populate t (map_get m (audio_file_id t))) ts).

(** [GetAudioFileTranscriptionsUseCase.execute(audio_file_id)] *)
Definition get_audio_file_transcriptions_execute (aid : string)
    : M World (list TranscriptionDTO) :=
  o <- audio_get_by_id aid;;
  match o with
  | None => throw (mkExn ValueError ("Audio file " ++ aid ++ " not found"))
  | Some _ =>
      ts <- trans_get_by_audio_file_id aid;;
      ret (map from_entity ts)
  end.

(** [self.file_storage.delete_file(path)]: the storage the router injects is
    a [LocalFileStorage], which has no attribute [delete_file]; the lookup
    raises [AttributeError] before anything is called. *)
Definition storage_delete_file (p : string) : M World unit :=
  throw (mkExn OtherException "'LocalFileStorage' object has no attribute 'delete_file'").

(** [for transcription in transcriptions: await self.transcription_repo.delete(transcription.id)] *)
Fixpoint trans_delete_each (ts : list Transcription) : M World unit :=
  match ts with
  | [] => ret tt
  | t :: ts' => trans_delete (id t);;; trans_delete_each ts'
  end.

(** [DeleteAudioFileUseCase.execute(audio_file_id)] *)
Definition delete_audio_file_execute (aid : string) : M World unit :=
  o <- audio_get_by_id aid;;
  match o with
  | None => throw (mkExn ValueError ("Audio file " ++ aid ++ " not found"))
  | Some af =>
      ts <- trans_get_by_audio_file_id aid;;
      try_except (storage_delete_file (af_file_path af)) (fun _ => ret tt);;;
      trans_delete_each ts;;;
      audio_delete aid;;;
      ret tt
  end.

(** Newest first: [ORDER BY created_at DESC]. *)
Definition newer_first (a b : Transcription) : Prop := (created_at b <= created_at a)%Z.

(** The message the use case records when the LLM call fails: the
    exception's, or the entity's own when the output is blank. *)
Definition llm_failure_message (r : result string) : string :=
  match r with
  | Raise e => str e
  | Ok _ => "Enhanced text cannot be empty"
  end.

(** ** Concrete ports and inputs, used to run the use cases *)

Definition demo_uuid (n : nat) : string :=
  match n with O => "a1" | S O => "t1" | S (S O) => "t2" | _ => "t3" end.

Definition demo_path (file_id filename : string) : string := "/uploads/" ++ file_id.

Definition demo_duration (d : Q) (p : string) : result Q := Ok d.

Definition demo_speech (txt : string) (p : string) (lang : option string) (mdl : string)
    (vad : bool) : result SpeechResult := Ok (mkSpeechResult txt "en" None).


Definition demo_llm (txt lang : option string) (tashkeel : bool) : result string := Ok "Hello.".

Definition demo_world : World := mkWorld [] [] [] [] 100%Z 0 [].

Definition demo_upload (llm tashkeel : bool) : AudioUploadDTO :=
  mkAudioUploadDTO "clip.wav" [Byte.x00] 1000%Z "audio/wav" None (Some "base") llm false tashkeel.

(** A persisted PENDING transcription and the world holding it. *)
Definition pending_sample : Transcription :=
  {| id := "t1"; audio_file_id := "a1"; text := None; status := PENDING;
     language := None; duration_seconds := 10; created_at := 100%Z;
     completed_at := None; error_message := None; model := Some "base";
     processing_time_seconds := None; enable_llm_enhancement := true;
     enhanced_text := None; llm_processing_time_seconds := None;
     llm_enhancement_status := None; llm_error_message := None;
     vad_filter_used := false; enable_tashkeel := false |}.

Definition pending_world : World := mkWorld ["/uploads/a1"] [] [] [pending_sample] 100%Z 2 [].

(** An audio file [a1] on disk and in the database, with no transcription. *)
Definition demo_audio : AudioFile :=
  mkAudioFile "a1" "clip.wav" "/uploads/a1" 1000%Z "audio/wav" (Some 10) 100%Z.

Definition retr_world : World := mkWorld ["/uploads/a1"] [] [demo_audio] [] 100%Z 1 [].

(** [a1] with its single transcription [t1]; and with a second one [t2]. *)
Definition delete_world : World :=
  mkWorld ["/uploads/a1"] [] [demo_audio] [pending_sample] 100%Z 2 [].

Definition delete_world2 : World :=
  mkWorld ["/uploads/a1"] [] [demo_audio]
    [pending_sample; {| id := "t2"; audio_file_id := "a1"; text := None; status := PENDING;
       language := None; duration_seconds := 10; created_at := 101%Z;
       completed_at := None; error_message := None; model := Some "small";
       processing_time_seconds := None; enable_llm_enhancement := false;
       enhanced_text := None; llm_processing_time_seconds := None;
       llm_enhancement_status := None; llm_error_message := None;
       vad_filter_used := false; enable_tashkeel := false |}] 100%Z 3 [].

(** A COMPLETED transcription that can be enhanced, and the world holding it. *)
Definition enhance_sample : Transcription :=
  {| id := "t1"; audio_file_id := "a1"; text := Some "hello"; status := COMPLETED;
     language := Some "en"; duration_seconds := 10; created_at := 100%Z;
     completed_at := Some 101%Z; error_message := None; model := Some "base";
     processing_time_seconds := Some 1; enable_llm_enhancement := true;
     enhanced_text := None; llm_processing_time_seconds := None;
     llm_enhancement_status := None; llm_error_message := None;
     vad_filter_used := false; enable_tashkeel := false |}.

Definition enhance_world : World :=
  mkWorld ["/uploads/a1"] [] [demo_audio] [enhance_sample] 100%Z 2 [].

Definition demo_llm_error (msg : string) (txt lang : option string) (tashkeel : bool)
    : result string := Raise (mkExn OtherException msg).

(** * Properties *)

(** ** Small checks of the embedding on concrete inputs *)

Example strip_example : strip "  hello world 	" = "hello world".
Proof. reflexivity. Qed.

Example strip_blank_example : strip " 	 " = "".
Proof. reflexivity. Qed.

(** ** Helper lemmas *)

Lemma strip_empty : strip "" = "".
Proof. reflexivity. Qed.

(** The guard [not s or not s.strip()] is [s.strip() == ""]. *)
Lemma empty_guard (s : string) :
  negb (truthy s) || negb (truthy (strip s)) = String.eqb (strip s) "".
Proof.
  unfold truthy. destruct (String.eqb_spec s "") as [->|Hne].
  - reflexivity.
  - simpl. destruct (String.eqb (strip s) ""); reflexivity.
Qed.

Lemma status_eqb_true (a b : TranscriptionStatus) : status_eqb a b = true <-> a = b.
Proof. destruct a, b; simpl; split; congruence. Qed.

Lemma status_eqb_false (a b : TranscriptionStatus) : status_eqb a b = false <-> a <> b.
Proof. destruct a, b; simpl; split; congruence. Qed.

Lemma no_speech_nonempty : NO_SPEECH <> "".
Proof. discriminate. Qed.

(** ** C2: the guard [can_be_enhanced] *)

(** C2. [can_be_enhanced t] holds exactly when enhancement is enabled, the
    status is COMPLETED, the text is present, non-empty after stripping and
    not the no-speech sentinel, and the enhancement status is [None] or
    ['failed']; in particular it is false whenever enhancement is disabled. *)
Theorem can_be_enhanced_iff (t : Transcription) :
  (can_be_enhanced t = true <->
     enable_llm_enhancement t = true /\ status t = COMPLETED /\
     (exists s, text t = Some s /\ strip s <> "" /\ s <> NO_SPEECH) /\
     (llm_enhancement_status t = None \/ llm_enhancement_status t = Some "failed")) /\
  (enable_llm_enhancement t = false -> can_be_enhanced t = false).
Proof.
  split.
  - unfold can_be_enhanced. split.
    + intro H. apply andb_prop in H as [H Hl]. apply andb_prop in H as [H Ht].
      apply andb_prop in H as [He Hs]. apply status_eqb_true in Hs.
      repeat split; auto.
      * destruct (text t) as [s|]; [|discriminate].
        apply andb_prop in Ht as [H1 H2]. apply negb_true_iff in H1, H2.
        exists s. repeat split; auto; apply String.eqb_neq; assumption.
      * apply orb_prop in Hl as [Hl|Hl];
          destruct (llm_enhancement_status t) as [x|]; simpl in Hl; try discriminate; auto.
        right. apply String.eqb_eq in Hl. subst. reflexivity.
    + intros (He & Hs & (s & Ht & Hs1 & Hs2) & Hl).
      rewrite He, Hs, Ht. simpl.
      apply String.eqb_neq in Hs1, Hs2. rewrite Hs1, Hs2. simpl.
      destruct Hl as [Hl|Hl]; rewrite Hl; reflexivity.
  - intro He. unfold can_be_enhanced. rewrite He. reflexivity.
Qed.

(** ** C3: [complete] *)

(** C3. [complete] raises a ValueError from every status but PROCESSING;
    from PROCESSING it succeeds, sets status COMPLETED, [completed_at] to the
    current time, clears [error_message] and stores the stripped text, or the
    no-speech sentinel when the text is empty or whitespace-only, never an
    empty string. *)
Theorem complete_spec (now : Z) (t : Transcription) (txt : string) (lang : option string)
    (duration processing_time : option Q) :
  (status t <> PROCESSING ->
     exists e, complete now t txt lang duration processing_time = Raise e /\
               exn_kind e = ValueError) /\
  (status t = PROCESSING ->
     exists t', complete now t txt lang duration processing_time = Ok t' /\
       status t' = COMPLETED /\ completed_at t' = Some now /\ error_message t' = None /\
       text t' = Some (if String.eqb (strip txt) "" then NO_SPEECH else strip txt) /\
       text t' <> Some "").
Proof.
  unfold complete. split.
  - intro H. apply status_eqb_false in H. rewrite H. simpl. eexists. split; reflexivity.
  - intro H. rewrite H. simpl. eexists. split; [reflexivity|].
    assert (Hg : truthy txt && truthy (strip txt) = negb (String.eqb (strip txt) "")).
    { rewrite <- empty_guard. rewrite negb_orb, !negb_involutive. reflexivity. }
    rewrite Hg.
    destruct (String.eqb_spec (strip txt) "") as [He|Hne]; simpl;
      (repeat split; [intro Hx; injection Hx]).
    + apply no_speech_nonempty.
    + exact Hne.
Qed.

(** ** C4: the primary status after COMPLETED or FAILED *)

(** A completed transcription, used by the concrete checks below. *)
Definition completed_sample : Transcription :=
  {| id := "t1"; audio_file_id := "a1"; text := Some "hello"; status := COMPLETED;
     language := Some "en"; duration_seconds := 10; created_at := 1%Z;
     completed_at := Some 2%Z; error_message := None; model := Some "base";
     processing_time_seconds := Some 1; enable_llm_enhancement := false;
     enhanced_text := None; llm_processing_time_seconds := None;
     llm_enhancement_status := None; llm_error_message := None;
     vad_filter_used := false; enable_tashkeel := false |}.

(** C4 (counterexample). [fail] has no status guard: on a COMPLETED
    transcription it succeeds and the primary status becomes FAILED. *)
Lemma fail_moves_completed_to_failed :
  status completed_sample = COMPLETED /\
  exists t', fail 3 completed_sample "disk error" = Ok t' /\ status t' = FAILED.
Proof. split; [reflexivity|]. eexists. split; reflexivity. Qed.

(** C4 (amended). From COMPLETED or FAILED, [mark_as_processing] and
    [complete] always raise, and [fail] either raises or sets the status to
    FAILED: FAILED never changes under these methods, COMPLETED can only move
    to FAILED. *)
Theorem terminal_status_transitions (now : Z) (t : Transcription) (txt msg : string)
    (lang : option string) (duration processing_time : option Q)
    (Hterm : status t = COMPLETED \/ status t = FAILED) :
  (exists e, mark_as_processing t = Raise e) /\
  (exists e, complete now t txt lang duration processing_time = Raise e) /\
  (forall t', fail now t msg = Ok t' -> status t' = FAILED).
Proof.
  unfold mark_as_processing, complete, fail.
  destruct Hterm as [H|H]; rewrite H; simpl;
    (split; [eexists; reflexivity|split; [eexists; reflexivity|]]);
    intros t' Hf;
    destruct (negb (truthy msg) || negb (truthy (strip msg))); inversion Hf; reflexivity.
Qed.

(** ** C9: [fail_llm_enhancement] *)

(** C9. With a message that is non-empty after stripping,
    [fail_llm_enhancement] sets [llm_enhancement_status] to ['failed'] and
    [llm_error_message] to the stripped message and leaves every other field
    (status, text, enhanced_text, ...) as it was; with an empty or
    whitespace-only message it raises a ValueError. *)
Theorem fail_llm_enhancement_frame (t : Transcription) (msg : string) :
  (strip msg <> "" ->
     fail_llm_enhancement t msg =
       Ok {| id := id t; audio_file_id := audio_file_id t; text := text t;
             status := status t; language := language t;
             duration_seconds := duration_seconds t; created_at := created_at t;
             completed_at := completed_at t; error_message := error_message t;
             model := model t; processing_time_seconds := processing_time_seconds t;
             enable_llm_enhancement := enable_llm_enhancement t;
             enhanced_text := enhanced_text t;
             llm_processing_time_seconds := llm_processing_time_seconds t;
             llm_enhancement_status := Some "failed";
             llm_error_message := Some (strip msg);
             vad_filter_used := vad_filter_used t; enable_tashkeel := enable_tashkeel t |}) /\
  (strip msg = "" ->
     exists e, fail_llm_enhancement t msg = Raise e /\ exn_kind e = ValueError).
Proof.
  unfold fail_llm_enhancement. rewrite empty_guard. split.
  - intro H. apply String.eqb_neq in H. rewrite H. reflexivity.
  - intro H. rewrite H. simpl. eexists. split; reflexivity.
Qed.

(** ** Repository helpers *)







(** ** C5: an exception of the speech engine inside Transcribe *)







(** ** C1: Transcribe with enhancement when the engine hears no speech *)


Lemma mem_filter_removed (p : string) (l : list string) :
  mem p (filter (fun q => negb (String.eqb q p)) l) = false.
Proof.
  induction l as [|q l IH]; [reflexivity|]. simpl.
  destruct (String.eqb_spec q p) as [->|Hne]; simpl; [exact IH|].
  rewrite IH. apply orb_false_iff. split; [|reflexivity].
  apply String.eqb_neq. intro H. apply Hne. symmetry. exact H.
Qed.

Lemma mem_saved (p : string) (l : list string) :
  mem p (if mem p l then l else p :: l) = true.
Proof.
  destruct (mem p l) eqn:E; [exact E|]. simpl. rewrite String.eqb_refl. reflexivity.
Qed.

(** What the storage delete of step 3.5 leaves behind. *)
Lemma storage_delete_then_raise (p : string) (e : Exn) (w : World) :
  mem p (files w) = true ->
  let '(r, w') := (storage_delete p;;; throw (A := AudioFile) e) w in
  (exists e', r = Raise e') /\ audio_rows w' = audio_rows w /\ trans_rows w' = trans_rows w /\
  (mem p (undeletable w) = false -> mem p (files w') = false /\ r = Raise e) /\
  (mem p (undeletable w) = true ->
     mem p (files w') = true /\ exists e', r = Raise e' /\ exn_kind e' = ServiceException).
Proof.
  intro Hin. unfold storage_delete, bind, throw. rewrite Hin. simpl.
  destruct (mem p (undeletable w)) eqn:Eu; simpl.
  - split; [eauto|]. split; [reflexivity|]. split; [reflexivity|]. split; [discriminate|].
    intros _. split; [exact Hin|]. eexists. split; reflexivity.
  - split; [eauto|]. split; [reflexivity|]. split; [reflexivity|].
    split; [|discriminate].
    intros _. split; [apply mem_filter_removed|reflexivity].
Qed.

(** The duration probe failed, or returned a duration [validate_duration] rejects. *)
Definition duration_rejected (max_duration : Z) (r : result Q) : Prop :=
  match r with
  | Raise _ => True
  | Ok d => Qle_bool d 0 = true \/ Qle_bool d (inject_Z max_duration) = false
  end.

Lemma duration_probe_raises (af : AudioFile) (p : string) (w : World) :
  mem p (files w) = true ->
  duration_rejected max_duration_seconds (get_audio_duration p) ->
  exists e, duration_probe af p w = (Raise e, w).
Proof.
  intros Hin Hdur. unfold duration_probe, bind, storage_exists, lift. simpl.
  rewrite Hin. simpl.
  destruct (get_audio_duration p) as [d|e] eqn:Ed; [|eauto].
  unfold validate_duration. simpl in Hdur |- *.
  destruct (Qle_bool d 0) eqn:E0; [eexists; reflexivity|].
  destruct Hdur as [H|H]; [congruence|]. rewrite H. eexists; reflexivity.
Qed.

Lemma duration_cleanup_raises (p : string) (e : Exn) (w : World) :
  mem p (files w) = true ->
  let '(r, w') := duration_cleanup p e w in
  (exists e', r = Raise e') /\ audio_rows w' = audio_rows w /\ trans_rows w' = trans_rows w /\
  (mem p (undeletable w) = false ->
     mem p (files w') = false /\ exists e', r = Raise e' /\ exn_kind e' = ValueError) /\
  (mem p (undeletable w) = true ->
     mem p (files w') = true /\ exists e', r = Raise e' /\ exn_kind e' = ServiceException).
Proof.
  intro Hin. unfold duration_cleanup.
  destruct (exn_kind e) eqn:Ek;
    match goal with
    | |- context [(storage_delete p;;; throw ?e0) w] =>
        pose proof (storage_delete_then_raise p e0 w Hin) as HD;
        destruct ((storage_delete p;;; throw e0) w) as [r w'];
        destruct HD as (Hr & Ha & Ht & Hf & Hs);
        split; [exact Hr|]; split; [exact Ha|]; split; [exact Ht|];
        split; [|exact Hs];
        intro Hu; destruct (Hf Hu) as [Hf' He]; split; [exact Hf'|];
        eexists; split; [exact He|]; (reflexivity || assumption)
    end.
Qed.

Lemma extract_duration_rejects (af : AudioFile) (p : string) (w : World) :
  mem p (files w) = true ->
  duration_rejected max_duration_seconds (get_audio_duration p) ->
  let '(r, w') := extract_duration af p w in
  (exists e, r = Raise e) /\ audio_rows w' = audio_rows w /\ trans_rows w' = trans_rows w /\
  (mem p (undeletable w) = false ->
     mem p (files w') = false /\ exists e, r = Raise e /\ exn_kind e = ValueError) /\
  (mem p (undeletable w) = true ->
     mem p (files w') = true /\ exists e, r = Raise e /\ exn_kind e = ServiceException).
Proof.
  intros Hin Hdur. destruct (duration_probe_raises af p w Hin Hdur) as [e He].
  unfold extract_duration, try_except. rewrite He.
  apply duration_cleanup_raises. exact Hin.
Qed.

(** ** C7: cleanup when the duration is missing or out of bounds *)

(** C7 (amended). When the upload passes the type and size checks and the
    duration probe of the stored file fails or returns a duration that
    [validate_duration] rejects, Transcribe raises and creates no AudioFile
    and no Transcription row; unless [os.remove] itself fails on the stored
    file, that file is deleted and the error raised is a ValueError. If it
    fails, the [ServiceException] of the storage layer is raised instead
    and the file stays on disk. *)
Theorem transcribe_duration_failure_cleanup (dto : AudioUploadDTO) (w : World)
    (Htype : existsb (String.eqb (up_mime_type dto)) SUPPORTED_AUDIO_TYPES = true)
    (Hsize : (0 < up_file_size dto <= max_file_size_mb * 1024 * 1024)%Z)
    (Hdur : duration_rejected max_duration_seconds
              (get_audio_duration (storage_path (uuid4 (seed w)) (up_filename dto)))) :
  let p := storage_path (uuid4 (seed w)) (up_filename dto) in
  let '(r, w') := transcribe_execute dto w in
  (exists e, r = Raise e) /\ audio_rows w' = audio_rows w /\ trans_rows w' = trans_rows w /\
  (mem p (undeletable w) = false ->
     mem p (files w') = false /\ exists e, r = Raise e /\ exn_kind e = ValueError) /\
  (mem p (undeletable w) = true ->
     mem p (files w') = true /\ exists e, r = Raise e /\ exn_kind e = ServiceException).
Proof.
  intro p.
  assert (Hf : validate_file_type
                 (mkAudioFile (uuid4 (seed w)) (up_filename dto) "" (up_file_size dto)
                    (up_mime_type dto) None (clock w)) = Ok true)
    by (unfold validate_file_type; cbn [af_mime_type]; rewrite Htype; reflexivity).
  assert (Hs : validate_file_size max_file_size_mb
                 (mkAudioFile (uuid4 (seed w)) (up_filename dto) "" (up_file_size dto)
                    (up_mime_type dto) None (clock w)) = Ok true).
  { unfold validate_file_size. cbn [af_file_size_bytes].
    replace (up_file_size dto <=? 0)%Z with false by (symmetry; apply Z.leb_gt; lia).
    replace (max_file_size_mb * 1024 * 1024 <? up_file_size dto)%Z with false
      by (symmetry; apply Z.ltb_ge; lia).
    reflexivity. }
  unfold transcribe_execute, bind at 1 2 3 4 5, fresh_uuid, now, lift.
  cbn -[extract_duration validate_file_type validate_file_size].
  rewrite Hf, Hs. cbn -[extract_duration]. fold p.
  unfold bind at 1.
  match goal with
  | |- context [extract_duration ?af p ?w1] =>
      assert (Hin : mem p (files w1) = true) by apply mem_saved;
      pose proof (extract_duration_rejects af p w1 Hin Hdur) as HX;
      destruct (extract_duration af p w1) as [[a|e] w2]
  end.
  - destruct HX as [[e He] _]. discriminate.
  - cbn [audio_rows trans_rows undeletable files set_files set_seed] in HX.
    destruct HX as (_ & Ha & Ht & Hu & Hv).
    split; [eauto|]. split; [exact Ha|]. split; [exact Ht|]. split.
    + intro H. destruct (Hu H) as [Hf2 (e0 & He0 & Hk)]. injection He0 as <-.
      split; [exact Hf2|]. eauto.
    + intro H. destruct (Hv H) as [Hf2 (e0 & He0 & Hk)]. injection He0 as <-.
      split; [exact Hf2|]. eauto.
Qed.


(** ** Retranscribe: helpers on the query of step 2 *)

Lemma in_insert_desc (x y : Transcription) (l : list Transcription) :
  In y (insert_desc x l) <-> y = x \/ In y l.
Proof.
  induction l as [|r l IH]; simpl.
  - split; intros [H|H]; auto; contradiction.
  - destruct (created_at r <=? created_at x)%Z; simpl.
    + split; intros [H|H]; auto.
    + rewrite IH. tauto.
Qed.

Lemma in_sort_created_desc (y : Transcription) (l : list Transcription) :
  In y (sort_created_desc l) <-> In y l.
Proof.
  induction l as [|x l IH]; simpl; [tauto|].
  rewrite in_insert_desc, IH. split; intros [H|H]; auto.
Qed.

(** The row [t] is a COMPLETED transcription of [aid] made with [mdl]. *)
Definition completed_with (aid mdl : string) (t : Transcription) : Prop :=
  audio_file_id t = aid /\ model t = Some mdl /\ status t = COMPLETED.

Lemma find_completed_test (mdl : string) (t : Transcription) :
  opt_string_eqb (model t) (Some mdl) && status_eqb (status t) COMPLETED = true <->
  model t = Some mdl /\ status t = COMPLETED.
Proof.
  rewrite andb_true_iff, status_eqb_true. destruct (model t) as [m|]; simpl.
  - rewrite String.eqb_eq. split; intros [H1 H2]; split; congruence.
  - split; intros [H1 H2]; discriminate.
Qed.

Lemma query_find_some (aid mdl : string) (rows : list Transcription) (t : Transcription) :
  find_completed mdl (sort_created_desc (filter (fun r => String.eqb (audio_file_id r) aid) rows))
    = Some t ->
  In t rows /\ completed_with aid mdl t.
Proof.
  intro H. apply find_some in H as [Hin Ht].
  apply in_sort_created_desc, filter_In in Hin as [Hin Ha].
  apply find_completed_test in Ht as [Hm Hs].
  apply String.eqb_eq in Ha. repeat split; assumption.
Qed.

Lemma query_find_none (aid mdl : string) (rows : list Transcription) :
  find_completed mdl (sort_created_desc (filter (fun r => String.eqb (audio_file_id r) aid) rows))
    = None <->
  forall t, In t rows -> ~ completed_with aid mdl t.
Proof.
  unfold find_completed. split.
  - intros H t Hin (Ha & Hm & Hs).
    assert (Hx : In t (sort_created_desc (filter (fun r => String.eqb (audio_file_id r) aid) rows))).
    { apply in_sort_created_desc, filter_In. split; [exact Hin|]. apply String.eqb_eq. exact Ha. }
    pose proof (find_none _ _ H t Hx) as Hf.
    assert (Ht : opt_string_eqb (model t) (Some mdl) && status_eqb (status t) COMPLETED = true)
      by (apply find_completed_test; auto).
    congruence.
  - intro H.
    destruct (find _ _) as [t|] eqn:E; [|reflexivity].
    exfalso. apply (H t); apply (query_find_some aid mdl rows t E).
Qed.

Lemma query_find_exists (aid mdl : string) (rows : list Transcription) (t : Transcription) :
  In t rows -> completed_with aid mdl t ->
  exists t0, find_completed mdl
               (sort_created_desc (filter (fun r => String.eqb (audio_file_id r) aid) rows))
             = Some t0.
Proof.
  intros Hin Hc.
  destruct (find_completed _ _) as [t0|] eqn:E; [eauto|].
  exfalso. apply (proj1 (query_find_none aid mdl rows) E t Hin Hc).
Qed.

(** ** Monad inversion *)

Lemma bind_ok_inv {S A B} (m : M S A) (f : A -> M S B) (s s2 : S) (b : B) :
  bind m f s = (Ok b, s2) -> exists a s1, m s = (Ok a, s1) /\ f a s1 = (Ok b, s2).
Proof.
  unfold bind. destruct (m s) as [[a|e] s1]; intro H; [eauto|discriminate].
Qed.

Lemma bind_ok_step {S A B} (m : M S A) (f : A -> M S B) (s s1 : S) (a : A) :
  m s = (Ok a, s1) -> bind m f s = f a s1.
Proof. unfold bind. intro H. rewrite H. reflexivity. Qed.

Lemma existsb_false_forall {A} (f : A -> bool) (l : list A) :
  existsb f l = false -> forall x, In x l -> f x = false.
Proof.
  intros H x Hx. destruct (f x) eqn:E; [|reflexivity].
  assert (existsb f l = true) by (apply existsb_exists; eauto). congruence.
Qed.

(** ** Entity methods never change the id *)

Create HintDb entity_ids.

Ltac id_kept :=
  intros; match goal with
  | H : _ = Ok _ |- _ =>
      repeat match type of H with
             | context [if ?b then _ else _] => destruct b
             end;
      inversion H; reflexivity
  end.

Lemma mark_as_processing_id (t t' : Transcription) :
  mark_as_processing t = Ok t' -> id t' = id t.
Proof. unfold mark_as_processing, value_error. id_kept. Qed.

Lemma complete_id n t txt lang d p (t' : Transcription) :
  complete n t txt lang d p = Ok t' -> id t' = id t.
Proof. unfold complete, value_error. id_kept. Qed.

Lemma fail_id n t msg (t' : Transcription) :
  fail n t msg = Ok t' -> id t' = id t.
Proof. unfold fail, value_error. id_kept. Qed.

Lemma mark_llm_processing_id (t t' : Transcription) :
  mark_llm_processing t = Ok t' -> id t' = id t.
Proof. unfold mark_llm_processing, value_error. id_kept. Qed.

Lemma complete_llm_enhancement_id t et pt (t' : Transcription) :
  complete_llm_enhancement t et pt = Ok t' -> id t' = id t.
Proof. unfold complete_llm_enhancement, value_error. id_kept. Qed.

Lemma fail_llm_enhancement_id t msg (t' : Transcription) :
  fail_llm_enhancement t msg = Ok t' -> id t' = id t.
Proof. unfold fail_llm_enhancement, value_error. id_kept. Qed.

#[local] Hint Resolve mark_as_processing_id complete_id fail_id mark_llm_processing_id
  complete_llm_enhancement_id fail_llm_enhancement_id : entity_ids.

(** ** Step 5 of Retranscribe keeps the rows it does not own *)

Section Retranscribe_rows.

(** The audio rows [A0] and the rows [R0] that were there before the
    transcription [tid] was created. *)
Variable A0 : list AudioFile.
Variable R0 : list Transcription.
Variables tid aid mdl : string.
Hypothesis HR0 : forall r, In r R0 -> id r <> tid.

(** The tables hold [A0], and [R0] followed by the row [tid] of [aid] and [mdl]. *)
Definition retr_inv (w : World) : Prop :=
  audio_rows w = A0 /\
  exists x, trans_rows w = (R0 ++ [x])%list /\ id x = tid /\ audio_file_id x = aid /\ model x = Some mdl.

(** A block on the local entity [tid] keeps [retr_inv] and the entity's id. *)
Definition keeps {A} (m : M (World * Transcription) A) : Prop :=
  forall w t r w' t', retr_inv w -> id t = tid -> m (w, t) = (r, (w', t')) ->
  retr_inv w' /\ id t' = tid.

Lemma keeps_bind {A B} (m : M _ A) (f : A -> M _ B) :
  keeps m -> (forall a, keeps (f a)) -> keeps (bind m f).
Proof.
  intros Hm Hf w t r w' t' Hi Ht. unfold bind.
  destruct (m (w, t)) as [[a|e] [w1 t1]] eqn:E.
  - destruct (Hm _ _ _ _ _ Hi Ht E) as [Hi1 Ht1]. apply (Hf a _ _ _ _ _ Hi1 Ht1).
  - intro H. injection H as <- <- <-. apply (Hm _ _ _ _ _ Hi Ht E).
Qed.

Lemma keeps_try {A} (m : M _ A) (h : Exn -> M _ A) :
  keeps m -> (forall e, keeps (h e)) -> keeps (try_except m h).
Proof.
  intros Hm Hh w t r w' t' Hi Ht. unfold try_except.
  destruct (m (w, t)) as [[a|e] [w1 t1]] eqn:E.
  - intro H. injection H as <- <- <-. apply (Hm _ _ _ _ _ Hi Ht E).
  - destruct (Hm _ _ _ _ _ Hi Ht E) as [Hi1 Ht1]. apply (Hh e _ _ _ _ _ Hi1 Ht1).
Qed.

Lemma keeps_ret {A} (a : A) : keeps (ret a).
Proof. intros w t r w' t' Hi Ht H. injection H as _ <- <-. auto. Qed.

Lemma keeps_cur_bind {B} (f : Transcription -> M _ B) :
  (forall t, id t = tid -> keeps (f t)) -> keeps (bind cur f).
Proof. intros Hf w t r w' t' Hi Ht. apply (Hf t Ht _ _ _ _ _ Hi Ht). Qed.

Lemma keeps_mutate (f : Transcription -> result Transcription) :
  (forall t t', f t = Ok t' -> id t' = id t) -> keeps (mutate f).
Proof.
  intros Hf w t r w' t' Hi Ht. unfold mutate.
  destruct (f t) as [t1|e] eqn:E; intro H; injection H as _ <- <-; auto.
  split; [exact Hi|]. rewrite (Hf _ _ E). exact Ht.
Qed.

Lemma keeps_on_world {A} (m : M World A) :
  (forall w r w', m w = (r, w') -> retr_inv w -> retr_inv w') -> keeps (on_world m).
Proof.
  intros Hm w t r w' t' Hi Ht. unfold on_world.
  destruct (m w) as [r1 w1] eqn:E. intro H. injection H as _ <- <-. eauto.
Qed.

Lemma update_rows_tail (t x : Transcription) :
  id t = tid -> id x = tid -> update_rows t ((R0 ++ [x])%list) = (R0 ++ [update_row x t])%list.
Proof.
  intros Ht Hx. unfold update_rows. rewrite map_app. cbn.
  rewrite Ht, Hx, String.eqb_refl. f_equal.
  assert (HR : forall r, In r R0 -> id r <> tid) by exact HR0.
  clear HR0. induction R0 as [|r R IH]; [reflexivity|]. cbn.
  rewrite (proj2 (String.eqb_neq (id r) tid)) by (apply HR; left; reflexivity).
  f_equal. apply IH. intros r' Hr'. apply HR. right. exact Hr'.
Qed.

Lemma find_tail (x : Transcription) :
  id x = tid -> find (fun r => String.eqb (id r) tid) ((R0 ++ [x])%list) = Some x.
Proof.
  intro Hx. assert (HR : forall r, In r R0 -> id r <> tid) by exact HR0.
  clear HR0. induction R0 as [|r R IH]; cbn.
  - rewrite Hx, String.eqb_refl. reflexivity.
  - rewrite (proj2 (String.eqb_neq (id r) tid)) by (apply HR; left; reflexivity).
    apply IH. intros r' Hr'. apply HR. right. exact Hr'.
Qed.

(** [repository.update] of the entity [tid] rewrites the last row only. *)
Lemma trans_update_tail (t x : Transcription) (w : World) :
  id t = tid -> id x = tid -> trans_rows w = (R0 ++ [x])%list ->
  trans_update t w = (Ok (update_row x t), set_trans_rows w ((R0 ++ [update_row x t])%list)).
Proof.
  intros Ht Hx Hw. unfold trans_update. rewrite Hw, Ht, find_tail by exact Hx.
  rewrite update_rows_tail by assumption. reflexivity.
Qed.

Lemma keeps_update_bind {B} (t : Transcription) (f : Transcription -> M _ B) :
  id t = tid -> (forall a, keeps (f a)) -> keeps (bind (on_world (trans_update t)) f).
Proof.
  intros Ht Hf. apply keeps_bind; [|exact Hf]. apply keeps_on_world.
  intros w r w' H [Ha [x (Hw & Hx & Hxa & Hxm)]].
  rewrite (trans_update_tail t x w Ht Hx Hw) in H. injection H as _ <-.
  split; [exact Ha|]. exists (update_row x t). cbn. auto.
Qed.

Lemma keeps_now : keeps (on_world now).
Proof. apply keeps_on_world. intros w r w' H Hi. injection H as _ <-. exact Hi. Qed.

Lemma keeps_lift {A} (r0 : result A) : keeps (on_world (lift r0)).
Proof. apply keeps_on_world. intros w r w' H Hi. injection H as _ <-. exact Hi. Qed.

Lemma keeps_call_llm txt lang tk : keeps (on_world (call_llm txt lang tk)).
Proof.
  apply keeps_on_world. intros w r w' H Hi.
  unfold call_llm, bind, modify_world, lift in H. injection H as _ <-. exact Hi.
Qed.

Ltac keeps_step :=
  match goal with
  | |- keeps (try_except _ _) => apply keeps_try; [|intro]
  | |- keeps (bind cur _) => apply keeps_cur_bind; intros ?t ?Ht
  | H : id ?t = tid |- keeps (bind (on_world (trans_update ?t)) _) =>
      apply keeps_update_bind; [exact H|intro]
  | |- keeps (bind _ _) => apply keeps_bind; [|intro]
  | |- keeps (mutate _) =>
      apply keeps_mutate; let Hf := fresh in intros ?t ?t' Hf; cbv beta in Hf;
      eauto with entity_ids
  | |- keeps (on_world now) => apply keeps_now
  | |- keeps (on_world (lift _)) => apply keeps_lift
  | |- keeps (on_world (call_llm _ _ _)) => apply keeps_call_llm
  | |- keeps (ret _) => apply keeps_ret
  | |- keeps (if ?b then _ else _) => destruct b
  | |- keeps (let _ := _ in _) => cbv zeta
  end.

Lemma retranscribe_step5_keeps af m lang en : keeps (retranscribe_step5 af m lang en).
Proof. unfold retranscribe_step5, enhance_block. repeat keeps_step. Qed.

Lemma with_entity_keeps (saved t : Transcription) m (w w' : World) :
  keeps m -> retr_inv w -> id saved = tid ->
  with_entity saved m w = (Ok t, w') -> retr_inv w' /\ id t = tid.
Proof.
  intros Hm Hi Hs. unfold with_entity.
  destruct (m (w, saved)) as [[u|e] [w1 t1]] eqn:E; intro H; [|discriminate].
  injection H as <- <-. apply (Hm _ _ _ _ _ Hi Hs E).
Qed.

End Retranscribe_rows.

Lemma find_audio_exists (aid : string) (l : list AudioFile) (af : AudioFile) :
  In af l -> af_id af = aid ->
  exists af', find (fun r => String.eqb (af_id r) aid) l = Some af' /\ af_id af' = aid.
Proof.
  intros Hin Ha. destruct (find _ l) as [af'|] eqn:E.
  - exists af'. split; [reflexivity|]. apply find_some in E as [_ E]. apply String.eqb_eq. exact E.
  - pose proof (find_none _ _ E af Hin) as H. cbv beta in H. rewrite Ha, String.eqb_refl in H. discriminate.
Qed.

(** Retranscribe, when a COMPLETED row of [aid] made with [mdl] is there. *)
Lemma retranscribe_existing_row (aid mdl : string) (lang : option string) (en : bool)
    (w : World) (af : AudioFile) (t : Transcription) :
  In af (audio_rows w) -> af_id af = aid ->
  In t (trans_rows w) -> completed_with aid mdl t ->
  exists t0, retranscribe_execute aid mdl lang en w = (Ok (from_entity t0), w) /\
    In t0 (trans_rows w) /\ completed_with aid mdl t0 /\
    ((forall t', In t' (trans_rows w) -> completed_with aid mdl t' -> id t' = id t) ->
     id t0 = id t).
Proof.
  intros Haf Hid Ht Hc.
  destruct (find_audio_exists aid (audio_rows w) af Haf Hid) as (af' & Ea & _).
  destruct (query_find_exists aid mdl (trans_rows w) t Ht Hc) as [t0 Et0].
  destruct (query_find_some aid mdl (trans_rows w) t0 Et0) as [Hin0 Hc0].
  exists t0. split; [|split; [exact Hin0|split; [exact Hc0|]]].
  - unfold retranscribe_execute.
    rewrite (bind_ok_step _ _ w w (Some af')) by (unfold audio_get_by_id; rewrite Ea; reflexivity).
    rewrite (bind_ok_step (trans_get_by_audio_file_id aid) _ w w _ eq_refl). cbv beta. rewrite Et0. reflexivity.
  - intro Hu. apply Hu; assumption.
Qed.

(** Retranscribe, run again on the world a COMPLETED run left. *)
Lemma retranscribe_repeat (aid mdl : string) (lang lang' : option string) (en en' : bool)
    (w w1 : World) (d1 : TranscriptionDTO) :
  retranscribe_execute aid mdl lang en w = (Ok d1, w1) ->
  dto_status d1 = COMPLETED ->
  retranscribe_execute aid mdl lang' en' w1 = (Ok d1, w1).
Proof.
  intros Hrun Hst. unfold retranscribe_execute in Hrun.
  apply bind_ok_inv in Hrun as (o & w0 & E1 & Hrun).
  unfold audio_get_by_id in E1. injection E1 as Eo <-.
  destruct o as [af|]; [|discriminate].
  apply bind_ok_inv in Hrun as (existing & w0 & E2 & Hrun).
  unfold trans_get_by_audio_file_id in E2. injection E2 as Eex <-.
  assert (Haf : af_id af = aid).
  { apply find_some in Eo as [_ Eo]. apply String.eqb_eq. exact Eo. }
  destruct (find_completed mdl existing) as [t0|] eqn:Ef.
  - (* the first run found a COMPLETED row and changed nothing *)
    injection Hrun as <- <-. unfold retranscribe_execute.
    rewrite (bind_ok_step _ _ w w (Some af)) by (unfold audio_get_by_id; rewrite Eo; reflexivity).
    rewrite (bind_ok_step (trans_get_by_audio_file_id aid) _ w w _ eq_refl). cbv beta. rewrite Eex, Ef. reflexivity.
  - (* the first run created the row [tid] *)
    rewrite <- Eex in Ef. pose proof (proj1 (query_find_none aid mdl (trans_rows w)) Ef) as Hnone.
    apply bind_ok_inv in Hrun as (tid & w2 & E3 & Hrun).
    unfold fresh_uuid in E3. injection E3 as Etid <-.
    apply bind_ok_inv in Hrun as (n & w3 & E4 & Hrun).
    unfold now in E4. injection E4 as En <-.
    apply bind_ok_inv in Hrun as (saved & w4 & E5 & Hrun).
    unfold trans_create in E5.
    destruct (existsb _ _) eqn:Eu in E5; [discriminate|].
    injection E5 as <- <-. cbn in Eu.
    assert (HR0 : forall r, In r (trans_rows w) -> id r <> tid).
    { intros r Hr. apply String.eqb_neq. exact (existsb_false_forall _ _ Eu r Hr). }
    apply bind_ok_inv in Hrun as (t & w5 & E6 & Hrun).
    apply bind_ok_inv in Hrun as (final & w6 & E7 & Hrun).
    injection Hrun as <- <-.
    set (A0 := audio_rows w) in *. set (R0 := trans_rows w) in *.
    assert (Hk := retranscribe_step5_keeps A0 R0 tid aid mdl HR0 af mdl lang en).
    eapply (with_entity_keeps A0 R0 tid aid mdl) in E6 as [[Ha5 (x & Hw5 & Hx & Hxa & Hxm)] Ht];
      [ | exact Hk | split; [reflexivity|eexists; split; [reflexivity|cbn; auto]] | reflexivity ].
    rewrite (trans_update_tail R0 tid HR0 t x w5 Ht Hx Hw5) in E7.
    injection E7 as <- <-.
    assert (Hcf : completed_with aid mdl (update_row x t)).
    { unfold completed_with; cbn. repeat split; auto. }
    assert (Hq : find_completed mdl (sort_created_desc
                   (filter (fun r => String.eqb (audio_file_id r) aid) (R0 ++ [update_row x t])%list))
                 = Some (update_row x t)).
    { assert (Hin : In (update_row x t) (R0 ++ [update_row x t])%list)
        by (apply in_or_app; right; left; reflexivity).
      destruct (query_find_exists aid mdl _ _ Hin Hcf) as [y Ey].
      rewrite Ey. destruct (query_find_some aid mdl _ y Ey) as [Hy Hcy].
      apply in_app_or in Hy as [Hy|[Hy|[]]].
      - exfalso. exact (Hnone y Hy Hcy).
      - rewrite Hy. reflexivity. }
    unfold retranscribe_execute.
    rewrite (bind_ok_step _ _ _ _ (Some af))
      by (unfold audio_get_by_id; cbn; rewrite Ha5; fold A0; rewrite Eo; reflexivity).
    rewrite (bind_ok_step (trans_get_by_audio_file_id aid) _ _ _ _ eq_refl). cbv beta. cbn [trans_rows set_trans_rows].
    rewrite Hq. reflexivity.
Qed.

(** ** Delete: helpers *)

Lemma length_insert_desc (x : Transcription) (l : list Transcription) :
  length (insert_desc x l) = S (length l).
Proof.
  induction l as [|r l IH]; [reflexivity|]. cbn.
  destruct (created_at r <=? created_at x)%Z; cbn; [reflexivity|]. rewrite IH. reflexivity.
Qed.

Lemma length_sort_created_desc (l : list Transcription) :
  length (sort_created_desc l) = length l.
Proof. induction l as [|x l IH]; [reflexivity|]. cbn. rewrite length_insert_desc, IH. reflexivity. Qed.

Lemma length_filter_lt {A} (f : A -> bool) (l : list A) (x : A) :
  In x l -> f x = false -> (length (filter f l) < length l)%nat.
Proof.
  intros Hin Hx. induction l as [|y l IH]; [destruct Hin|].
  cbn. destruct Hin as [<-|Hin].
  - rewrite Hx. pose proof (filter_length_le f l). lia.
  - specialize (IH Hin). destruct (f y); cbn; lia.
Qed.

(** C10. When the id resolves to a row [t] whose audio file [af] is
    there, Delete returns [True] and removes exactly the rows with that id.
    The audio row and its file go if and only if [t] was the only
    transcription of the audio file; a failing file delete is swallowed. *)
Theorem delete_transcription_cascade (tid : string) (w w' : World) (r : result bool)
    (t : Transcription) (af : AudioFile) :
  find (fun x => String.eqb (id x) tid) (trans_rows w) = Some t ->
  find (fun a => String.eqb (af_id a) (audio_file_id t)) (audio_rows w) = Some af ->
  delete_transcription_execute tid w = (r, w') ->
  r = Ok true /\
  trans_rows w' = filter (fun x => negb (String.eqb (id x) tid)) (trans_rows w) /\
  (length (filter (fun x => String.eqb (audio_file_id x) (audio_file_id t)) (trans_rows w))
     = 1%nat ->
   audio_rows w' = filter (fun a => negb (String.eqb (af_id a) (audio_file_id t))) (audio_rows w) /\
   (truthy (af_file_path af) = true -> mem (af_file_path af) (undeletable w) = false ->
    mem (af_file_path af) (files w') = false)) /\
  (length (filter (fun x => String.eqb (audio_file_id x) (audio_file_id t)) (trans_rows w))
     <> 1%nat ->
   audio_rows w' = audio_rows w /\ files w' = files w).
Proof.
  intros Ht Ha H.
  assert (Hsucc : Nat.ltb (length (filter (fun x => negb (String.eqb (id x) tid)) (trans_rows w)))
                    (length (trans_rows w)) = true).
  { apply Nat.ltb_lt. apply find_some in Ht as [Hin Hid].
    apply (length_filter_lt _ _ t Hin). cbv beta in Hid |- *. rewrite Hid. reflexivity. }
  unfold delete_transcription_execute in H.
  rewrite (bind_ok_step (trans_get_by_id tid) _ w w (Some t)) in H
    by (unfold trans_get_by_id; rewrite Ht; reflexivity).
  cbv beta iota in H.
  rewrite (bind_ok_step (trans_get_by_audio_file_id (audio_file_id t)) _ w w _ eq_refl) in H.
  rewrite (bind_ok_step (trans_delete tid) _ w _ _ eq_refl) in H.
  cbv beta in H. rewrite length_sort_created_desc, Hsucc in H. revert H.
  destruct (Nat.eqb_spec (length (filter (fun x => String.eqb (audio_file_id x) (audio_file_id t))
                                     (trans_rows w))) 1) as [E1|E1]; intro H.
  - rewrite (bind_ok_step (audio_get_by_id (audio_file_id t)) _ _ _ (Some af)) in H
      by (unfold audio_get_by_id; cbn; rewrite Ha; reflexivity).
    cbv beta iota in H.
    destruct (truthy (af_file_path af)) eqn:Ep.
    + cbv [try_except bind storage_delete audio_delete ret] in H.
      cbn [files undeletable set_trans_rows audio_rows trans_rows set_files set_audio_rows] in H.
      destruct (mem (af_file_path af) (files w)) eqn:Ef; cbn in H;
        [destruct (mem (af_file_path af) (undeletable w)) eqn:Eu; cbn in H|].
      all: injection H as <- <-.
      all: split; [reflexivity|]; split; [reflexivity|]; split; [|intro; contradiction].
      all: intros _; split; [reflexivity|]; intros _ Hu; cbn; auto; try congruence.
      apply mem_filter_removed.
    + cbv [bind audio_delete ret] in H. cbn in H. injection H as <- <-.
      split; [reflexivity|]. split; [reflexivity|]. split; [|intro; contradiction].
      intros _. split; [reflexivity|]. intro. discriminate.
  - unfold ret in H. injection H as <- <-.
    split; [reflexivity|]. split; [reflexivity|]. split; [intro; contradiction|].
    intros _. split; reflexivity.
Qed.

(** C8. If the audio file is there with a COMPLETED transcription made with
    [mdl], Retranscribe returns such a row and leaves the database as it is
    (the row itself when it is the only one). After a Retranscribe that
    returned a COMPLETED transcription, a second one with the same audio file
    id and model returns the same transcription and creates no row, whatever
    its language and enhancement flag. *)
Theorem retranscribe_idempotent :
  (forall (aid mdl : string) (lang : option string) (en : bool) (w : World)
          (af : AudioFile) (t : Transcription),
     In af (audio_rows w) -> af_id af = aid ->
     In t (trans_rows w) -> completed_with aid mdl t ->
     exists t0, retranscribe_execute aid mdl lang en w = (Ok (from_entity t0), w) /\
       In t0 (trans_rows w) /\ completed_with aid mdl t0 /\
       ((forall t', In t' (trans_rows w) -> completed_with aid mdl t' -> id t' = id t) ->
        id t0 = id t)) /\
  (forall (aid mdl : string) (lang lang' : option string) (en en' : bool)
          (w w1 : World) (d1 : TranscriptionDTO),
     retranscribe_execute aid mdl lang en w = (Ok d1, w1) ->
     dto_status d1 = COMPLETED ->
     retranscribe_execute aid mdl lang' en' w1 = (Ok d1, w1)).
Proof. split; [exact retranscribe_existing_row | exact retranscribe_repeat]. Qed.


(** * Further properties of the code *)

(** ** The entities *)

(** X1. A transcription may be deleted exactly when it is not PROCESSING. *)
Theorem can_be_deleted_iff (t : Transcription) :
  can_be_deleted t = true <-> status t <> PROCESSING.
Proof.
  unfold can_be_deleted. destruct (status t); cbn; split; congruence || tauto.
Qed.

(** X2. [mark_as_processing] succeeds exactly on a PENDING transcription and
    then changes its status to PROCESSING and nothing else. *)
Theorem mark_as_processing_spec (t : Transcription) :
  (is_pending t = true ->
   exists t', mark_as_processing t = Ok t' /\ is_in_progress t' = true /\
     t' = {| id := id t; audio_file_id := audio_file_id t; text := text t;
             status := PROCESSING; language := language t;
             duration_seconds := duration_seconds t; created_at := created_at t;
             completed_at := completed_at t; error_message := error_message t;
             model := model t; processing_time_seconds := processing_time_seconds t;
             enable_llm_enhancement := enable_llm_enhancement t;
             enhanced_text := enhanced_text t;
             llm_processing_time_seconds := llm_processing_time_seconds t;
             llm_enhancement_status := llm_enhancement_status t;
             llm_error_message := llm_error_message t;
             vad_filter_used := vad_filter_used t; enable_tashkeel := enable_tashkeel t |}) /\
  (is_pending t = false -> exists e, mark_as_processing t = Raise e /\ exn_kind e = ValueError).
Proof.
  unfold is_pending, mark_as_processing, is_in_progress. split; intro H; rewrite H; cbn.
  - eexists. split; [reflexivity|]. split; reflexivity.
  - eexists. split; reflexivity.
Qed.

(** X3. On an enhanceable transcription, [mark_llm_processing] followed by
    [complete_llm_enhancement] with a non-blank text leaves it enhanced with
    the stripped text, its text and status untouched, and no longer
    enhanceable. *)
Theorem llm_enhancement_success (t : Transcription) (et : string) (pt : Q) :
  can_be_enhanced t = true -> strip et <> "" ->
  exists t1 t2, mark_llm_processing t = Ok t1 /\ complete_llm_enhancement t1 et pt = Ok t2 /\
    is_llm_enhanced t2 = true /\ enhanced_text t2 = Some (strip et) /\
    llm_processing_time_seconds t2 = Some pt /\ llm_error_message t2 = None /\
    text t2 = text t /\ status t2 = status t /\ can_be_enhanced t2 = false.
Proof.
  intros Hc Hs. unfold mark_llm_processing. rewrite Hc. cbn.
  unfold complete_llm_enhancement. cbn. rewrite empty_guard.
  apply String.eqb_neq in Hs. rewrite Hs.
  do 2 eexists. split; [reflexivity|]. split; [reflexivity|].
  unfold is_llm_enhanced, can_be_enhanced. cbn.
  repeat split; try reflexivity.
  rewrite !andb_false_r. reflexivity.
Qed.

(** X4. On an enhanceable transcription, [mark_llm_processing] followed by
    [fail_llm_enhancement] with a non-blank message leaves it enhanceable
    again (a retry is allowed), not enhanced, with its enhanced text as before. *)
Theorem llm_enhancement_retry (t : Transcription) (msg : string) :
  can_be_enhanced t = true -> strip msg <> "" ->
  exists t1 t2, mark_llm_processing t = Ok t1 /\ fail_llm_enhancement t1 msg = Ok t2 /\
    can_be_enhanced t2 = true /\ is_llm_enhanced t2 = false /\
    enhanced_text t2 = enhanced_text t /\ llm_error_message t2 = Some (strip msg).
Proof.
  intros Hc Hs. unfold mark_llm_processing. rewrite Hc. cbn.
  unfold fail_llm_enhancement. rewrite empty_guard.
  apply String.eqb_neq in Hs. rewrite Hs.
  do 2 eexists. split; [reflexivity|]. split; [reflexivity|].
  unfold is_llm_enhanced, can_be_enhanced in *. cbn.
  apply andb_prop in Hc as [Hc _]. rewrite Hc. cbn.
  repeat split; reflexivity.
Qed.

(** X5. [complete_llm_enhancement] raises a ValueError unless the enhancement
    is 'processing', and also on a blank enhanced text. *)
Theorem complete_llm_enhancement_guard (t : Transcription) (et : string) (pt : Q) :
  (llm_enhancement_status t <> Some "processing" \/ strip et = "") ->
  exists e, complete_llm_enhancement t et pt = Raise e /\ exn_kind e = ValueError.
Proof.
  unfold complete_llm_enhancement. rewrite empty_guard. intros [H|H].
  - destruct (llm_enhancement_status t) as [s|] eqn:E; cbn.
    + destruct (String.eqb_spec s "processing") as [->|Hne]; [congruence|].
      cbn. eexists. split; reflexivity.
    + eexists. split; reflexivity.
  - rewrite H, String.eqb_refl.
    destruct (negb _); eexists; split; reflexivity.
Qed.

(** X6. [validate] accepts exactly the files of a supported MIME type, of a
    size in [(0, max_size_mb MiB]], and, when the duration is known, of a
    duration in [(0, max_duration_seconds]]; otherwise it raises a ValueError. *)
Theorem validate_iff (max_mb max_dur : Z) (a : AudioFile) :
  (validate max_mb max_dur a = Ok true <->
   In (af_mime_type a) SUPPORTED_AUDIO_TYPES /\
   (0 < af_file_size_bytes a <= max_mb * 1024 * 1024)%Z /\
   match af_duration_seconds a with
   | None => True
   | Some d => 0 < d /\ d <= inject_Z max_dur
   end) /\
  (validate max_mb max_dur a <> Ok true ->
   exists e, validate max_mb max_dur a = Raise e /\ exn_kind e = ValueError).
Proof.
  unfold validate, validate_file_type, validate_file_size, validate_duration.
  assert (Hmime : existsb (String.eqb (af_mime_type a)) SUPPORTED_AUDIO_TYPES = true <->
                  In (af_mime_type a) SUPPORTED_AUDIO_TYPES).
  { rewrite existsb_exists. split.
    - intros (x & Hx & E). apply String.eqb_eq in E. subst. exact Hx.
    - intro H. exists (af_mime_type a). split; [exact H|apply String.eqb_refl]. }
  destruct (existsb _ SUPPORTED_AUDIO_TYPES) eqn:Em.
  2:{ split; [split; [discriminate|] |].
      - intros (H & _). apply Hmime in H. discriminate.
      - intros _. eexists. split; reflexivity. }
  cbv zeta.
  destruct (af_file_size_bytes a <=? 0)%Z eqn:Es1.
  { split; [split; [discriminate|] |].
    - intros (_ & H & _). apply Z.leb_le in Es1. lia.
    - intros _. eexists. split; reflexivity. }
  destruct (max_mb * 1024 * 1024 <? af_file_size_bytes a)%Z eqn:Es2.
  { split; [split; [discriminate|] |].
    - intros (_ & H & _). apply Z.ltb_lt in Es2. lia.
    - intros _. eexists. split; reflexivity. }
  apply Z.leb_gt in Es1. apply Z.ltb_ge in Es2.
  destruct (af_duration_seconds a) as [d|].
  2:{ split; [split; [intros _|intros _; reflexivity] |].
      - split; [apply Hmime; reflexivity|]. split; [lia|exact I].
      - intro H. exfalso. apply H. reflexivity. }
  destruct (Qle_bool d 0) eqn:Ed1.
  { split; [split; [discriminate|] |].
    - intros (_ & _ & H & _). apply Qle_bool_iff in Ed1.
      exfalso. apply (Qlt_not_le 0 d H Ed1).
    - intros _. eexists. split; reflexivity. }
  destruct (Qle_bool d (inject_Z max_dur)) eqn:Ed2; cbn.
  - split; [split; [intros _|] |].
    + split; [apply Hmime; reflexivity|]. split; [lia|]. split.
      * apply Qnot_le_lt. intro H. apply Qle_bool_iff in H. congruence.
      * apply Qle_bool_iff. exact Ed2.
    + reflexivity.
    + intro H. exfalso. apply H. reflexivity.
  - split; [split; [discriminate|] |].
    + intros (_ & _ & _ & H). apply Qle_bool_iff in H. congruence.
    + intros _. eexists. split; reflexivity.
Qed.

(** ** Local file storage *)

(** X7. A saved file exists; unless [os.remove] fails on it, a delete
    returns [True] and removes it, and a second delete returns [False] and
    changes nothing; if [os.remove] fails, the delete raises a
    [ServiceException]. *)
Theorem storage_save_delete (sp : string -> string -> string) (content : list Byte.byte)
    (fid fn : string) (w : World) :
  let p := sp fid fn in
  let w1 := snd (storage_save sp content fid fn w) in
  fst (storage_save sp content fid fn w) = Ok p /\
  storage_exists p w1 = (Ok true, w1) /\
  (mem p (undeletable w) = false ->
   exists w2, storage_delete p w1 = (Ok true, w2) /\ storage_exists p w2 = (Ok false, w2) /\
              storage_delete p w2 = (Ok false, w2)) /\
  (mem p (undeletable w) = true ->
   exists e, storage_delete p w1 = (Raise e, w1) /\ exn_kind e = ServiceException).
Proof.
  pose proof (mem_saved (sp fid fn) (files w)) as Hs.
  cbv beta zeta delta [storage_save storage_exists storage_delete].
  cbn [fst snd files undeletable set_files]. rewrite Hs. cbn [negb]. split; [reflexivity|]. split; [reflexivity|]. split.
  - intro Hu. rewrite Hu. eexists. split; [reflexivity|].
    cbn [fst snd files undeletable set_files]. rewrite mem_filter_removed. split; reflexivity.
  - intro Hu. rewrite Hu. eexists. split; reflexivity.
Qed.

(** ** The repositories *)

Lemma existsb_none {A} (f : A -> bool) (l : list A) :
  (forall x, In x l -> f x = false) -> existsb f l = false.
Proof.
  intro H. destruct (existsb f l) eqn:E; [|reflexivity].
  apply existsb_exists in E as (x & Hx & Fx). rewrite (H x Hx) in Fx. discriminate.
Qed.

Lemma find_app_none {A} (f : A -> bool) (l : list A) (x : A) :
  (forall y, In y l -> f y = false) -> f x = true -> find f (l ++ [x]) = Some x.
Proof.
  intros H Hx. induction l as [|y l IH]; cbn.
  - rewrite Hx. reflexivity.
  - rewrite (H y (or_introl eq_refl)). apply IH. intros z Hz. apply H. right. exact Hz.
Qed.

Lemma ltb_length_filter {A} (f : A -> bool) (l : list A) :
  Nat.ltb (length (filter (fun x => negb (f x)) l)) (length l) = existsb f l.
Proof.
  induction l as [|x l IH]; [reflexivity|]. cbn.
  pose proof (filter_length_le (fun x => negb (f x)) l) as Hle.
  destruct (f x); cbn.
  - apply Nat.leb_le. lia.
  - exact IH.
Qed.

Lemma find_filter_removed {A} (f : A -> bool) (l : list A) :
  find f (filter (fun x => negb (f x)) l) = None.
Proof.
  induction l as [|x l IH]; [reflexivity|]. cbn.
  destruct (f x) eqn:E; cbn; [exact IH|]. rewrite E. exact IH.
Qed.

(** X8. [create] of a transcription whose id is not in the table appends
    its row, which [get_by_id] then returns; the row loses the entity's
    [vad_filter_used] and [enable_tashkeel] (no column) but nothing its DTO
    shows. A duplicate id raises a [RepositoryException] and writes nothing. *)
Theorem trans_create_get (t : Transcription) (w : World) :
  ((forall r, In r (trans_rows w) -> id r <> id t) ->
   exists w', trans_create t w = (Ok (to_row t), w') /\
     trans_rows w' = (trans_rows w ++ [to_row t])%list /\
     fst (trans_get_by_id (id t) w') = Ok (Some (to_row t)) /\
     from_entity (to_row t) = from_entity t /\
     vad_filter_used (to_row t) = false /\ enable_tashkeel (to_row t) = false) /\
  ((exists r, In r (trans_rows w) /\ id r = id t) ->
   exists e, trans_create t w = (Raise e, w) /\ exn_kind e = RepositoryException).
Proof.
  unfold trans_create, trans_get_by_id. split.
  - intro H. rewrite existsb_none.
    + eexists. split; [reflexivity|]. split; [reflexivity|]. cbn.
      rewrite (find_app_none _ _ (to_row t)).
      * repeat split; reflexivity.
      * intros y Hy. apply String.eqb_neq. exact (H y Hy).
      * apply String.eqb_refl.
    + intros x Hx. apply String.eqb_neq. exact (H x Hx).
  - intros (r & Hr & Hid).
    assert (E : existsb (fun r => String.eqb (id r) (id t)) (trans_rows w) = true).
    { apply existsb_exists. exists r. split; [exact Hr|]. apply String.eqb_eq. exact Hid. }
    rewrite E. eexists. split; reflexivity.
Qed.

Lemma find_update_rows (k : string) (t r : Transcription) (rows : list Transcription) :
  id t = k -> find (fun x => String.eqb (id x) k) rows = Some r ->
  find (fun x => String.eqb (id x) k) (update_rows t rows) = Some (update_row r t).
Proof.
  intros Ht. subst k. unfold update_rows.
  induction rows as [|x l IH]; cbn; [discriminate|].
  destruct (String.eqb (id x) (id t)) eqn:Hx; cbn.
  - intro H. injection H as <-. rewrite Hx. reflexivity.
  - rewrite Hx. exact IH.
Qed.

(** X9. [update] of a transcription whose id is not in the table raises a
    [RepositoryException] and writes nothing. Otherwise [get_by_id] then
    returns the stored row with every column taken from the entity but
    [id], [audio_file_id], [created_at] and [model], which keep their stored
    values; rows of other ids are untouched. *)
Theorem trans_update_get (t : Transcription) (w : World) :
  ((forall r, In r (trans_rows w) -> id r <> id t) ->
   exists e, trans_update t w = (Raise e, w) /\ exn_kind e = RepositoryException) /\
  (forall r, find (fun x => String.eqb (id x) (id t)) (trans_rows w) = Some r ->
   exists w', trans_update t w = (Ok (update_row r t), w') /\
     fst (trans_get_by_id (id t) w') = Ok (Some (update_row r t)) /\
     id (update_row r t) = id r /\ audio_file_id (update_row r t) = audio_file_id r /\
     created_at (update_row r t) = created_at r /\ model (update_row r t) = model r /\
     status (update_row r t) = status t /\ text (update_row r t) = text t /\
     enhanced_text (update_row r t) = enhanced_text t /\
     (forall x, In x (trans_rows w) -> id x <> id t -> In x (trans_rows w')) /\
     audio_rows w' = audio_rows w).
Proof.
  unfold trans_update. split.
  - intro H. destruct (find _ _) as [r|] eqn:E.
    + exfalso. apply find_some in E as [Hr Er]. apply String.eqb_eq in Er. exact (H r Hr Er).
    + eexists. split; reflexivity.
  - intros r E. rewrite E. eexists. split; [reflexivity|].
    unfold trans_get_by_id. cbn. rewrite (find_update_rows (id t) t r) by auto.
    repeat split; try reflexivity.
    intros x Hx Hne. unfold update_rows. apply in_map_iff. exists x. split; [|exact Hx].
    apply String.eqb_neq in Hne. rewrite Hne. reflexivity.
Qed.

(** X10. [delete] of a transcription id removes every row of that id and
    only those, returns whether one was there, and [get_by_id] then finds
    nothing. *)
Theorem trans_delete_spec (tid : string) (w : World) :
  let '(r, w') := trans_delete tid w in
  r = Ok (existsb (fun x => String.eqb (id x) tid) (trans_rows w)) /\
  trans_rows w' = filter (fun x => negb (String.eqb (id x) tid)) (trans_rows w) /\
  fst (trans_get_by_id tid w') = Ok None /\
  audio_rows w' = audio_rows w /\ files w' = files w.
Proof.
  cbv beta zeta delta [trans_delete trans_get_by_id].
  cbn [fst snd trans_rows set_trans_rows audio_rows files].
  rewrite (ltb_length_filter (fun x => String.eqb (id x) tid)).
  repeat split; try reflexivity.
  rewrite (find_filter_removed (fun x => String.eqb (id x) tid)). reflexivity.
Qed.

(** X11. [SQLiteAudioFileRepository]: [create] of a fresh id and a fresh
    [file_path] makes the row readable by [get_by_id]; a duplicate id or a
    [file_path] already stored raises a [RepositoryException];
    [delete] returns whether the row was there, leaves none, and does not
    cascade: the transcriptions of that audio file stay in their table. *)
Theorem audio_repository_spec (a : AudioFile) (aid : string) (w : World) :
  ((forall r, In r (audio_rows w) -> af_id r <> af_id a /\ af_file_path r <> af_file_path a) ->
   exists w', audio_create a w = (Ok a, w') /\ audio_rows w' = (audio_rows w ++ [a])%list /\
     fst (audio_get_by_id (af_id a) w') = Ok (Some a)) /\
  ((exists r, In r (audio_rows w) /\ (af_id r = af_id a \/ af_file_path r = af_file_path a)) ->
   exists e, audio_create a w = (Raise e, w) /\ exn_kind e = RepositoryException) /\
  (let '(r, w') := audio_delete aid w in
   r = Ok (existsb (fun x => String.eqb (af_id x) aid) (audio_rows w)) /\
   fst (audio_get_by_id aid w') = Ok None /\
   trans_rows w' = trans_rows w /\ files w' = files w).
Proof.
  unfold audio_create, audio_get_by_id, audio_delete. split; [|split].
  - intro H. rewrite existsb_none.
    + eexists. split; [reflexivity|]. split; [reflexivity|]. cbn.
      rewrite (find_app_none _ _ a); [reflexivity| |apply String.eqb_refl].
      intros y Hy. apply String.eqb_neq. exact (proj1 (H y Hy)).
    + intros x Hx. destruct (H x Hx) as [H1 H2].
      apply orb_false_iff. split; apply String.eqb_neq; assumption.
  - intros (r & Hr & Hid).
    assert (E : existsb (fun r => String.eqb (af_id r) (af_id a) ||
                                  String.eqb (af_file_path r) (af_file_path a)) (audio_rows w) = true).
    { apply existsb_exists. exists r. split; [exact Hr|]. apply orb_true_iff.
      destruct Hid as [Hid|Hid]; [left|right]; apply String.eqb_eq; exact Hid. }
    rewrite E. eexists. split; reflexivity.
  - cbn [fst snd trans_rows set_audio_rows audio_rows files].
    rewrite (ltb_length_filter (fun x => String.eqb (af_id x) aid)).
    rewrite (find_filter_removed (fun x => String.eqb (af_id x) aid)).
    repeat split; reflexivity.
Qed.


Lemma insert_desc_hd (r x : Transcription) (l : list Transcription) :
  HdRel newer_first r l -> newer_first r x -> HdRel newer_first r (insert_desc x l).
Proof.
  intros H Hx. destruct l as [|y l]; cbn.
  - constructor. exact Hx.
  - destruct (created_at y <=? created_at x)%Z; constructor; [exact Hx|].
    inversion H; assumption.
Qed.

Lemma insert_desc_sorted (x : Transcription) (l : list Transcription) :
  Sorted newer_first l -> Sorted newer_first (insert_desc x l).
Proof.
  induction l as [|y l IH]; cbn; intro H.
  - repeat constructor.
  - destruct (created_at y <=? created_at x)%Z eqn:E.
    + constructor; [exact H|]. constructor. apply Z.leb_le. exact E.
    + inversion H; subst. constructor; [apply IH; assumption|].
      apply insert_desc_hd; [assumption|]. unfold newer_first.
      apply Z.leb_gt in E. lia.
Qed.

Lemma sort_created_desc_sorted (l : list Transcription) : Sorted newer_first (sort_created_desc l).
Proof. induction l as [|x l IH]; cbn; [constructor|]. apply insert_desc_sorted. exact IH. Qed.

Lemma insert_desc_perm (x : Transcription) (l : list Transcription) :
  Permutation (insert_desc x l) (x :: l).
Proof.
  induction l as [|y l IH]; cbn; [reflexivity|].
  destruct (created_at y <=? created_at x)%Z; [reflexivity|].
  rewrite IH. apply perm_swap.
Qed.

Lemma sort_created_desc_perm (l : list Transcription) : Permutation (sort_created_desc l) l.
Proof.
  induction l as [|x l IH]; cbn; [reflexivity|].
  rewrite insert_desc_perm. apply perm_skip. exact IH.
Qed.

(** X12. [get_by_audio_file_id] returns exactly the rows of that audio file
    (as a multiset), newest first, and writes nothing. *)
Theorem trans_get_by_audio_file_id_spec (aid : string) (w : World) :
  exists ts, trans_get_by_audio_file_id aid w = (Ok ts, w) /\
    Permutation ts (filter (fun r => String.eqb (audio_file_id r) aid) (trans_rows w)) /\
    Sorted newer_first ts.
Proof.
  eexists. split; [reflexivity|]. split.
  - apply sort_created_desc_perm.
  - apply sort_created_desc_sorted.
Qed.

Lemma sorted_skipn {A} (R : A -> A -> Prop) (n : nat) (l : list A) :
  Sorted R l -> Sorted R (skipn n l).
Proof.
  revert l. induction n as [|n IH]; intros l H; [exact H|].
  destruct l as [|x l]; [constructor|]. cbn. apply IH. inversion H; assumption.
Qed.

Lemma sorted_firstn {A} (R : A -> A -> Prop) (n : nat) (l : list A) :
  Sorted R l -> Sorted R (firstn n l).
Proof.
  revert n. induction l as [|x l IH]; intros n H; [destruct n; constructor|].
  destruct n as [|n]; cbn; [constructor|].
  inversion H; subst. constructor; [apply IH; assumption|].
  destruct l as [|y l]; destruct n; cbn; constructor.
  inversion H3; assumption.
Qed.

(** X13. [get_all(limit, offset)] returns [min(limit, N - offset)] rows of
    the [N] in the table, newest first, and writes nothing. *)
Theorem trans_get_all_spec (limit offset : nat) (w : World) :
  exists ts, trans_get_all limit offset w = (Ok ts, w) /\
    length ts = Nat.min limit (length (trans_rows w) - offset) /\
    Sorted newer_first ts /\ (forall t, In t ts -> In t (trans_rows w)).
Proof.
  eexists. split; [reflexivity|]. split; [|split].
  - rewrite length_firstn, length_skipn, length_sort_created_desc. reflexivity.
  - apply sorted_firstn, sorted_skipn, sort_created_desc_sorted.
  - intros t Ht. apply (in_sort_created_desc t).
    rewrite <- (firstn_skipn offset (sort_created_desc (trans_rows w))).
    apply in_or_app. right.
    rewrite <- (firstn_skipn limit (skipn offset (sort_created_desc (trans_rows w)))).
    apply in_or_app. left. exact Ht.
Qed.

(** ** The read-only use cases *)

(** X14. GetTranscription returns [None] for an unknown id; otherwise the
    DTO of the first row of that id, with the original filename and upload
    time of its audio file when that row is there and [None] otherwise. It
    writes nothing. *)
Theorem get_transcription_spec (tid : string) (w : World) :
  (find (fun r => String.eqb (id r) tid) (trans_rows w) = None ->
   get_transcription_execute tid w = (Ok None, w)) /\
  (forall t, find (fun r => String.eqb (id r) tid) (trans_rows w) = Some t ->
   exists d, get_transcription_execute tid w = (Ok (Some d), w) /\
     dn_dto d = from_entity t /\
     match find (fun a => String.eqb (af_id a) (audio_file_id t)) (audio_rows w) with
     | Some af => dn_audio_file_original_filename d = Some (af_original_filename af) /\
                  dn_audio_file_uploaded_at d = Some (af_uploaded_at af)
     | None => dn_audio_file_original_filename d = None /\ dn_audio_file_uploaded_at d = None
     end).
Proof.
  unfold get_transcription_execute. split.
  - intro H. rewrite (bind_ok_step (trans_get_by_id tid) _ w w None)
      by (unfold trans_get_by_id; rewrite H; reflexivity). reflexivity.
  - intros t H. rewrite (bind_ok_step (trans_get_by_id tid) _ w w (Some t))
      by (unfold trans_get_by_id; rewrite H; reflexivity). cbv beta iota.
    rewrite (bind_ok_step (audio_get_by_id (audio_file_id t)) _ w w _ eq_refl).
    eexists. split; [reflexivity|]. split; [destruct (find _ (audio_rows w)); reflexivity|].
    destruct (find _ (audio_rows w)); split; reflexivity.
Qed.

Lemma map_get_app (m : list (string * AudioFile)) (i k : string) (af : AudioFile) :
  map_get (m ++ [(i, af)])%list k =
  match map_get m k with Some a => Some a | None => if String.eqb i k then Some af else None end.
Proof.
  unfold map_get. induction m as [|[j a] m IH]; cbn.
  - destruct (String.eqb i k); reflexivity.
  - destruct (String.eqb j k); [reflexivity|]. exact IH.
Qed.

(** The dict built by the loop maps every id of the loop that has an audio
    row to that row. *)
Lemma fetch_audio_files_spec (ids : list string) (m : list (string * AudioFile)) (w : World) :
  exists m', fetch_audio_files ids m w = (Ok m', w) /\
  forall k, map_get m' k =
    match map_get m k with
    | Some a => Some a
    | None => if existsb (fun i => String.eqb i k) ids
              then find (fun a => String.eqb (af_id a) k) (audio_rows w) else None
    end.
Proof.
  revert m. induction ids as [|i ids IH]; intro m; cbn.
  - exists m. split; [reflexivity|]. intro k. destruct (map_get m k); reflexivity.
  - unfold bind, audio_get_by_id.
    destruct (find (fun a => String.eqb (af_id a) i) (audio_rows w)) as [af|] eqn:Ea.
    + destruct (IH (m ++ [(i, af)])%list) as (m' & E & Hm'). rewrite E.
      exists m'. split; [reflexivity|]. intro k. rewrite Hm', map_get_app.
      destruct (map_get m k); [reflexivity|].
      destruct (String.eqb_spec i k) as [<-|Hne]; cbn; [|reflexivity].
      rewrite Ea. reflexivity.
    + destruct (IH m) as (m' & E & Hm'). rewrite E.
      exists m'. split; [reflexivity|]. intro k. rewrite Hm'.
      destruct (map_get m k); [reflexivity|].
      destruct (String.eqb_spec i k) as [<-|Hne]; cbn; [|reflexivity].
      rewrite Ea. destruct (existsb _ ids); reflexivity.
Qed.

(** X15. The history returns one item per row of [get_all(limit, offset)],
    in that order, each the row's DTO with the original filename and upload
    time of its audio file when that row is there; it writes nothing. *)
Theorem get_history_spec (limit offset : nat) (w : World) :
  exists ts, trans_get_all limit offset w = (Ok ts, w) /\
    get_history_execute limit offset w =
    (Ok (map (fun t => populate t (find (fun a => String.eqb (af_id a) (audio_file_id t))
                                        (audio_rows w))) ts), w).
Proof.
  eexists. split; [reflexivity|]. unfold get_history_execute.
  rewrite (bind_ok_step (trans_get_all limit offset) _ w w _ eq_refl). cbv beta.
  set (ts := firstn limit (skipn offset (sort_created_desc (trans_rows w)))).
  destruct (fetch_audio_files_spec (nodup string_dec (map audio_file_id ts)) [] w)
    as (m' & E & Hm').
  rewrite (bind_ok_step _ _ w w m' E). unfold ret. f_equal. f_equal.
  apply map_ext_in. intros t Ht. f_equal. rewrite Hm'. cbn.
  replace (existsb _ _) with true; [reflexivity|]. symmetry.
  apply existsb_exists. exists (audio_file_id t). split; [|apply String.eqb_refl].
  apply nodup_In. apply in_map. exact Ht.
Qed.

(** X16. GetAudioFileTranscriptions raises a ValueError for an unknown audio
    file; otherwise it returns the DTOs of exactly that file's
    transcriptions (as a multiset), newest first. It writes nothing. *)
Theorem get_audio_file_transcriptions_spec (aid : string) (w : World) :
  (find (fun a => String.eqb (af_id a) aid) (audio_rows w) = None ->
   exists e, get_audio_file_transcriptions_execute aid w = (Raise e, w) /\ exn_kind e = ValueError) /\
  (forall af, find (fun a => String.eqb (af_id a) aid) (audio_rows w) = Some af ->
   exists ts, get_audio_file_transcriptions_execute aid w = (Ok (map from_entity ts), w) /\
     Permutation ts (filter (fun r => String.eqb (audio_file_id r) aid) (trans_rows w)) /\
     Sorted newer_first ts).
Proof.
  unfold get_audio_file_transcriptions_execute. split.
  - intro H. rewrite (bind_ok_step (audio_get_by_id aid) _ w w None)
      by (unfold audio_get_by_id; rewrite H; reflexivity).
    eexists. split; reflexivity.
  - intros af H. rewrite (bind_ok_step (audio_get_by_id aid) _ w w (Some af))
      by (unfold audio_get_by_id; rewrite H; reflexivity). cbv beta iota.
    rewrite (bind_ok_step (trans_get_by_audio_file_id aid) _ w w _ eq_refl).
    eexists. split; [reflexivity|]. split.
    + apply sort_created_desc_perm.
    + apply sort_created_desc_sorted.
Qed.

(** ** DeleteAudioFile *)

Lemma filter_filter_and {A} (f g : A -> bool) (l : list A) :
  filter g (filter f l) = filter (fun x => f x && g x) l.
Proof.
  induction l as [|x l IH]; [reflexivity|]. cbn.
  destruct (f x); cbn; [destruct (g x)|]; cbn; rewrite ?IH; reflexivity.
Qed.

Lemma trans_delete_each_spec (ts : list Transcription) (w : World) :
  trans_delete_each ts w =
  (Ok tt, set_trans_rows w
            (filter (fun r => negb (existsb (fun t => String.eqb (id t) (id r)) ts)) (trans_rows w))).
Proof.
  revert w. induction ts as [|t ts IH]; intro w; cbn.
  - unfold ret, set_trans_rows. destruct w as [f u a r c s l]; cbn. do 2 f_equal.
    induction r as [|x r IHr]; cbn; [reflexivity|]. rewrite <- IHr. reflexivity.
  - unfold bind, trans_delete. cbn. rewrite IH. unfold set_trans_rows.
    destruct w as [f u a r c s l]; cbn. f_equal. f_equal.
    rewrite filter_filter_and. apply filter_ext. intro x.
    rewrite (String.eqb_sym (id t) (id x)). destruct (String.eqb (id x) (id t)); reflexivity.
Qed.

Lemma nodup_map_inj {A B} (f : A -> B) (l : list A) (x y : A) :
  NoDup (map f l) -> In x l -> In y l -> f x = f y -> x = y.
Proof.
  induction l as [|a l IH]; cbn; [contradiction|].
  intros Hnd Hx Hy Hf. apply NoDup_cons_iff in Hnd as [Ha Hnd].
  destruct Hx as [<-|Hx]; destruct Hy as [<-|Hy]; auto.
  - exfalso. apply Ha. rewrite Hf. apply in_map. exact Hy.
  - exfalso. apply Ha. rewrite <- Hf. apply in_map. exact Hx.
Qed.

(** X17. DeleteAudioFile of an existing audio file (transcription ids being
    unique, as the primary key makes them) removes the audio row and exactly
    the transcriptions of that file, and returns normally; but the stored
    file is never removed from disk: [delete_file] is not a method of
    [LocalFileStorage], and the [AttributeError] is swallowed. *)
Theorem delete_audio_file_spec (aid : string) (w : World) (af : AudioFile) :
  find (fun a => String.eqb (af_id a) aid) (audio_rows w) = Some af ->
  NoDup (map id (trans_rows w)) ->
  exists w', delete_audio_file_execute aid w = (Ok tt, w') /\
    trans_rows w' = filter (fun r => negb (String.eqb (audio_file_id r) aid)) (trans_rows w) /\
    audio_rows w' = filter (fun a => negb (String.eqb (af_id a) aid)) (audio_rows w) /\
    files w' = files w.
Proof.
  intros Ha Hnd. unfold delete_audio_file_execute.
  rewrite (bind_ok_step (audio_get_by_id aid) _ w w (Some af))
    by (unfold audio_get_by_id; rewrite Ha; reflexivity). cbv beta iota.
  rewrite (bind_ok_step (trans_get_by_audio_file_id aid) _ w w _ eq_refl). cbv beta.
  set (ts := sort_created_desc (filter (fun r => String.eqb (audio_file_id r) aid) (trans_rows w))).
  rewrite (bind_ok_step (try_except (storage_delete_file (af_file_path af)) (fun _ => ret tt))
             _ w w tt eq_refl).
  rewrite (bind_ok_step (trans_delete_each ts) _ w _ tt (trans_delete_each_spec ts w)).
  unfold bind, audio_delete, ret. cbn.
  eexists. split; [reflexivity|]. split; [|split; reflexivity].
  apply filter_ext_in. intros x Hx. f_equal.
  destruct (String.eqb (audio_file_id x) aid) eqn:Ex.
  - apply existsb_exists. exists x. split; [|apply String.eqb_refl].
    apply in_sort_created_desc, filter_In. split; assumption.
  - destruct (existsb _ ts) eqn:E; [|reflexivity]. exfalso.
    apply existsb_exists in E as (y & Hy & Ey).
    apply in_sort_created_desc, filter_In in Hy as [Hy Ay].
    apply String.eqb_eq in Ey. rewrite (nodup_map_inj id _ y x Hnd Hy Hx Ey) in Ay.
    congruence.
Qed.

(** ** Unknown ids *)

(** X18. For an id no transcription row has, Enhance raises a ValueError,
    DeleteTranscription returns [False] and GetTranscription returns
    [None]; none of them writes anything or calls the LLM port. *)
Theorem unknown_transcription_id (tid : string) (w : World) :
  (forall r, In r (trans_rows w) -> id r <> tid) ->
  (exists e, enhance_execute tid w = (Raise e, w) /\ exn_kind e = ValueError) /\
  delete_transcription_execute tid w = (Ok false, w) /\
  get_transcription_execute tid w = (Ok None, w).
Proof.
  intro H.
  assert (Hf : find (fun r => String.eqb (id r) tid) (trans_rows w) = None).
  { destruct (find _ _) as [r|] eqn:E; [|reflexivity]. exfalso.
    apply find_some in E as [Hr Er]. apply String.eqb_eq in Er. exact (H r Hr Er). }
  assert (Hg : trans_get_by_id tid w = (Ok None, w)) by (unfold trans_get_by_id; rewrite Hf; reflexivity).
  split; [|split].
  - unfold enhance_execute. rewrite (bind_ok_step _ _ w w None Hg). eexists. split; reflexivity.
  - unfold delete_transcription_execute. rewrite (bind_ok_step _ _ w w None Hg). reflexivity.
  - unfold get_transcription_execute. rewrite (bind_ok_step _ _ w w None Hg). reflexivity.
Qed.

(** X19. For an id no audio row has, Retranscribe, GetAudioFileTranscriptions
    and DeleteAudioFile raise a ValueError and write nothing. *)
Theorem unknown_audio_file_id (aid mdl : string) (lang : option string) (en : bool) (w : World) :
  (forall a, In a (audio_rows w) -> af_id a <> aid) ->
  (exists e, retranscribe_execute aid mdl lang en w = (Raise e, w) /\ exn_kind e = ValueError) /\
  (exists e, get_audio_file_transcriptions_execute aid w = (Raise e, w) /\ exn_kind e = ValueError) /\
  (exists e, delete_audio_file_execute aid w = (Raise e, w) /\ exn_kind e = ValueError).
Proof.
  intro H.
  assert (Hf : find (fun a => String.eqb (af_id a) aid) (audio_rows w) = None).
  { destruct (find _ _) as [a|] eqn:E; [|reflexivity]. exfalso.
    apply find_some in E as [Ha Ea]. apply String.eqb_eq in Ea. exact (H a Ha Ea). }
  assert (Hg : audio_get_by_id aid w = (Ok None, w)) by (unfold audio_get_by_id; rewrite Hf; reflexivity).
  split; [|split].
  - unfold retranscribe_execute. rewrite (bind_ok_step _ _ w w None Hg). eexists. split; reflexivity.
  - unfold get_audio_file_transcriptions_execute. rewrite (bind_ok_step _ _ w w None Hg).
    eexists. split; reflexivity.
  - unfold delete_audio_file_execute. rewrite (bind_ok_step _ _ w w None Hg).
    eexists. split; reflexivity.
Qed.

(** ** EnhanceTranscription *)

Lemma mark_llm_processing_ok (t : Transcription) :
  can_be_enhanced t = true ->
  exists t1, mark_llm_processing t = Ok t1 /\ id t1 = id t /\ text t1 = text t /\
    language t1 = language t /\ status t1 = status t /\ enhanced_text t1 = enhanced_text t /\
    llm_enhancement_status t1 = Some "processing" /\
    enable_llm_enhancement t1 = enable_llm_enhancement t.
Proof.
  intro Hc. unfold mark_llm_processing. rewrite Hc. cbn.
  eexists. split; [reflexivity|]. repeat split.
Qed.

(** X20. Enhancing an enhanceable transcription whose LLM output is not
    blank calls the LLM port once, with the text, the language and
    [enable_tashkeel=False], and returns (and stores) the transcription
    with its stripped output, status 'completed', the measured time and
    no error; text and status are unchanged and audio rows and files are
    untouched. *)
Theorem enhance_execute_success (tid : string) (t : Transcription) (et : string) (w : World) :
  find (fun r => String.eqb (id r) tid) (trans_rows w) = Some t ->
  can_be_enhanced t = true ->
  llm_enhance (text t) (language t) false = Ok et ->
  strip et <> "" ->
  exists d w', enhance_execute tid w = (Ok d, w') /\
    dto_id d = tid /\ dto_text d = text t /\ dto_status d = status t /\
    dto_enhanced_text d = Some (strip et) /\
    dto_llm_enhancement_status d = Some "completed" /\
    dto_llm_processing_time_seconds d = Some elapsed /\ dto_llm_error_message d = None /\
    llm_calls w' = (llm_calls w ++ [(text t, language t, false)])%list /\
    (exists r, find (fun r => String.eqb (id r) tid) (trans_rows w') = Some r /\ from_entity r = d) /\
    audio_rows w' = audio_rows w /\ files w' = files w.
Proof.
  intros Ht Hc Hl Hs.
  pose proof (find_some _ _ Ht) as [Hin Hid]. apply String.eqb_eq in Hid. subst tid.
  destruct (mark_llm_processing_ok t Hc) as (t1 & Em & I1 & X1 & L1 & S1 & E1 & P1 & N1).
  assert (Ec : exists t2, complete_llm_enhancement t1 et elapsed = Ok t2 /\ id t2 = id t /\
            text t2 = text t /\ status t2 = status t /\ enhanced_text t2 = Some (strip et) /\
            llm_enhancement_status t2 = Some "completed" /\
            llm_processing_time_seconds t2 = Some elapsed /\ llm_error_message t2 = None).
  { unfold complete_llm_enhancement. rewrite P1. cbn. rewrite empty_guard.
    apply String.eqb_neq in Hs. rewrite Hs. cbn.
    eexists. split; [reflexivity|]. cbn. repeat split; congruence. }
  destruct Ec as (t2 & Ec & I2 & X2 & S2 & E2 & P2 & T2 & R2).
  unfold enhance_execute.
  rewrite (bind_ok_step (trans_get_by_id (id t)) _ w w (Some t))
    by (unfold trans_get_by_id; rewrite Ht; reflexivity).
  cbv beta iota. rewrite Hc. cbn [negb].
  unfold with_entity, bind, mutate, cur, on_world, try_except, call_llm, modify_world, lift, ret.
  rewrite Em. unfold trans_update. rewrite I1, Ht.
  cbn [trans_rows set_trans_rows set_llm_calls llm_calls].
  rewrite X1, L1, Hl. unfold bind. rewrite Ec.
  cbn [trans_rows set_trans_rows set_llm_calls llm_calls].
  rewrite I2, (find_update_rows (id t) t1 t (trans_rows w) I1 Ht).
  eexists _, _. split; [reflexivity|].
  cbn. rewrite ?I1, ?I2, ?X2, ?S2, ?E2, ?P2, ?T2, ?R2.
  repeat split; try reflexivity.
  exists (update_row (update_row t t1) t2). split; [|reflexivity].
  apply find_update_rows; [exact I2|]. apply find_update_rows; assumption.
Qed.

Lemma fail_llm_enhancement_fields (t : Transcription) (msg : string) :
  strip msg <> "" ->
  exists t2, fail_llm_enhancement t msg = Ok t2 /\ id t2 = id t /\ text t2 = text t /\
    status t2 = status t /\ enhanced_text t2 = enhanced_text t /\
    enable_llm_enhancement t2 = enable_llm_enhancement t /\
    llm_enhancement_status t2 = Some "failed" /\ llm_error_message t2 = Some (strip msg).
Proof.
  intro Hs. unfold fail_llm_enhancement. rewrite empty_guard.
  apply String.eqb_neq in Hs. rewrite Hs. cbn.
  eexists. split; [reflexivity|]. repeat split.
Qed.


(** X21. When the LLM port raises (with a non-blank message) or returns a
    blank text, Enhance still returns normally: the transcription is stored
    with status 'failed', the stripped message and its previous enhanced
    text, its text and status unchanged, and it can be enhanced again. *)
Theorem enhance_execute_llm_failure (tid : string) (t : Transcription) (w : World) :
  find (fun r => String.eqb (id r) tid) (trans_rows w) = Some t ->
  can_be_enhanced t = true ->
  match llm_enhance (text t) (language t) false with
  | Raise e => strip (str e) <> ""
  | Ok et => strip et = ""
  end ->
  exists d w', enhance_execute tid w = (Ok d, w') /\
    dto_id d = tid /\ dto_text d = text t /\ dto_status d = status t /\
    dto_enhanced_text d = enhanced_text t /\
    dto_llm_enhancement_status d = Some "failed" /\
    dto_llm_error_message d =
      Some (strip (llm_failure_message (llm_enhance (text t) (language t) false))) /\
    llm_calls w' = (llm_calls w ++ [(text t, language t, false)])%list /\
    (exists r, find (fun r => String.eqb (id r) tid) (trans_rows w') = Some r /\
               from_entity r = d /\ can_be_enhanced r = true).
Proof.
  intros Ht Hc Hr.
  pose proof (find_some _ _ Ht) as [Hin Hid]. apply String.eqb_eq in Hid. subst tid.
  destruct (mark_llm_processing_ok t Hc) as (t1 & Em & I1 & X1 & L1 & S1 & E1 & P1 & N1).
  assert (Hf : exists t2,
            try_except
              (t <- cur;;
               r <- on_world (call_llm (text t) (language t) false);;
               mutate (fun t => complete_llm_enhancement t r elapsed))
              (fun e => mutate (fun t => fail_llm_enhancement t (str e)))
              (set_trans_rows w (update_rows t1 (trans_rows w)), t1) =
            (Ok tt, (set_llm_calls (set_trans_rows w (update_rows t1 (trans_rows w)))
                       (llm_calls w ++ [(text t, language t, false)])%list, t2)) /\
            id t2 = id t /\ text t2 = text t /\ status t2 = status t /\
            enhanced_text t2 = enhanced_text t /\
            enable_llm_enhancement t2 = enable_llm_enhancement t /\
            llm_enhancement_status t2 = Some "failed" /\
            llm_error_message t2 =
              Some (strip (llm_failure_message (llm_enhance (text t) (language t) false)))).
  { unfold try_except, bind, cur, on_world, call_llm, modify_world, lift, mutate.
    cbn [trans_rows set_trans_rows set_llm_calls llm_calls]. rewrite X1, L1.
    destruct (llm_enhance (text t) (language t) false) as [et|e]; cbn [llm_failure_message];
      unfold bind; cbn [trans_rows set_trans_rows set_llm_calls llm_calls].
    - assert (Ec : complete_llm_enhancement t1 et elapsed =
                   value_error "Enhanced text cannot be empty").
      { unfold complete_llm_enhancement. rewrite P1. cbn. rewrite empty_guard, Hr. reflexivity. }
      rewrite Ec. cbn [value_error str exn_msg].
      assert (Hm : strip "Enhanced text cannot be empty" <> "") by (vm_compute; discriminate).
      destruct (fail_llm_enhancement_fields t1 _ Hm) as (t2 & Ef & F1 & F2 & F3 & F4 & F5 & F6 & F7).
      rewrite Ef. exists t2. split; [reflexivity|]. repeat split; congruence.
    - destruct (fail_llm_enhancement_fields t1 _ Hr) as (t2 & Ef & F1 & F2 & F3 & F4 & F5 & F6 & F7).
      rewrite Ef. exists t2. split; [reflexivity|]. repeat split; congruence. }
  destruct Hf as (t2 & Hf & I2 & X2 & S2 & E2 & N2 & P2 & R2).
  unfold enhance_execute.
  rewrite (bind_ok_step (trans_get_by_id (id t)) _ w w (Some t))
    by (unfold trans_get_by_id; rewrite Ht; reflexivity).
  cbv beta iota. rewrite Hc. cbn [negb].
  set (blk := try_except _ _) in Hf |- *.
  unfold with_entity, bind, mutate, cur, on_world. rewrite Em.
  unfold trans_update at 1. rewrite I1, Ht.
  cbn [trans_rows set_trans_rows set_llm_calls llm_calls]. rewrite Hf.
  unfold bind, trans_update.
  cbn [trans_rows set_trans_rows set_llm_calls llm_calls].
  rewrite I2, (find_update_rows (id t) t1 t (trans_rows w) I1 Ht).
  eexists _, _. split; [reflexivity|].
  cbn. rewrite ?I1, ?I2, ?X2, ?S2, ?E2, ?P2, ?R2.
  repeat split; try reflexivity.
  exists (update_row (update_row t t1) t2). split; [|split; [reflexivity|]].
  - apply find_update_rows; [exact I2|]. apply find_update_rows; assumption.
  - unfold can_be_enhanced in *. cbn. rewrite N2, S2, X2, P2.
    apply andb_prop in Hc as [Hc _]. rewrite Hc. reflexivity.
Qed.

(** ** TranscribeAudio *)

Lemma validate_file_type_cases (a : AudioFile) :
  (existsb (String.eqb (af_mime_type a)) SUPPORTED_AUDIO_TYPES = true /\ validate_file_type a = Ok true) \/
  (existsb (String.eqb (af_mime_type a)) SUPPORTED_AUDIO_TYPES = false /\
   exists e, validate_file_type a = Raise e /\ exn_kind e = ValueError).
Proof.
  unfold validate_file_type, value_error. destruct (existsb _ _); [left|right]; split; eauto.
Qed.

Lemma validate_file_size_cases (m : Z) (a : AudioFile) :
  ((0 < af_file_size_bytes a <= m * 1024 * 1024)%Z /\ validate_file_size m a = Ok true) \/
  (~ (0 < af_file_size_bytes a <= m * 1024 * 1024)%Z /\
   exists e, validate_file_size m a = Raise e /\ exn_kind e = ValueError).
Proof.
  unfold validate_file_size, value_error.
  destruct (Z.leb_spec (af_file_size_bytes a) 0).
  - right. split; [lia|eauto].
  - destruct (Z.ltb_spec (m * 1024 * 1024) (af_file_size_bytes a)).
    + right. split; [lia|eauto].
    + left. split; [lia|reflexivity].
Qed.

(** X22. An upload of an unsupported MIME type, or of a size not in
    (0, max_file_size_mb MiB], is rejected with a ValueError before anything
    is stored: only the uuid source has moved (no file, no row). *)
Theorem transcribe_rejects_invalid_upload (dto : AudioUploadDTO) (w : World) :
  existsb (String.eqb (up_mime_type dto)) SUPPORTED_AUDIO_TYPES = false \/
  ~ (0 < up_file_size dto <= max_file_size_mb * 1024 * 1024)%Z ->
  exists e, transcribe_execute dto w = (Raise e, set_seed w (S (seed w))) /\ exn_kind e = ValueError.
Proof.
  intro Hbad.
  unfold transcribe_execute, bind at 1 2 3 4, fresh_uuid, now, lift.
  cbn -[validate_file_type validate_file_size storage_save extract_duration].
  match goal with |- context [validate_file_type ?a] =>
    destruct (validate_file_type_cases a) as [[Ht E]|[Ht (e & E & K)]]; rewrite E
  end.
  - cbn -[validate_file_size storage_save extract_duration].
    match goal with |- context [validate_file_size ?m ?a] =>
      destruct (validate_file_size_cases m a) as [[Hs E']|[Hs (e & E' & K)]]; rewrite E'
    end.
    + cbn [af_mime_type af_file_size_bytes] in Ht, Hs. exfalso.
      destruct Hbad as [H|H]; [congruence|contradiction].
    + exists e. split; [reflexivity|exact K].
  - exists e. split; [reflexivity|exact K].
Qed.






End UseCases.

(** ** Runs of the use cases on concrete inputs *)



(** C4 (amended), at a completed transcription. *)
Lemma terminal_status_transitions_witness :
  (exists e, mark_as_processing completed_sample = Raise e) /\
  (exists e, complete 3 completed_sample "x" None None None = Raise e) /\
  (forall t', fail 3 completed_sample "boom" = Ok t' -> status t' = FAILED).
Proof.
  apply (terminal_status_transitions 3 completed_sample "x" "boom" None None None).
  left. reflexivity.
Defined.




(** C7 (counterexample). When removing the stored file fails, the
    [ServiceException] of the storage layer propagates (not a validation
    error) and the stored file is still on disk. *)
Lemma transcribe_cleanup_failure_leaves_file :
  exists w',
    transcribe_execute demo_uuid demo_path (demo_duration 0) (demo_speech "hello") demo_llm 0
      25 30 (demo_upload false false) (mkWorld [] ["/uploads/a1"] [] [] 100%Z 0 []) =
    (Raise (mkExn ServiceException "Failed to delete file"), w') /\
    mem "/uploads/a1" (files w') = true.
Proof. eexists. split; [vm_compute; reflexivity | reflexivity]. Qed.

Lemma transcribe_duration_failure_cleanup_witness :
  (let '(r, w') := transcribe_execute demo_uuid demo_path (demo_duration 45) (demo_speech "hello")
                     demo_llm 0 25 30 (demo_upload false false) demo_world in
   (exists e, r = Raise e) /\ audio_rows w' = audio_rows demo_world /\
   trans_rows w' = trans_rows demo_world /\
   (mem "/uploads/a1" (undeletable demo_world) = false ->
      mem "/uploads/a1" (files w') = false /\ exists e, r = Raise e /\ exn_kind e = ValueError) /\
   (mem "/uploads/a1" (undeletable demo_world) = true ->
      mem "/uploads/a1" (files w') = true /\
      exists e, r = Raise e /\ exn_kind e = ServiceException)) /\
  (let w0 := mkWorld [] ["/uploads/a1"] [] [] 100%Z 0 [] in
   let '(r, w') := transcribe_execute demo_uuid demo_path (demo_duration 0) (demo_speech "hello")
                     demo_llm 0 25 30 (demo_upload false false) w0 in
   (exists e, r = Raise e) /\ audio_rows w' = audio_rows w0 /\ trans_rows w' = trans_rows w0 /\
   (mem "/uploads/a1" (undeletable w0) = false ->
      mem "/uploads/a1" (files w') = false /\ exists e, r = Raise e /\ exn_kind e = ValueError) /\
   (mem "/uploads/a1" (undeletable w0) = true ->
      mem "/uploads/a1" (files w') = true /\
      exists e, r = Raise e /\ exn_kind e = ServiceException)).
Proof.
  split.
  - apply (transcribe_duration_failure_cleanup demo_uuid demo_path (demo_duration 45)
             (demo_speech "hello") demo_llm 0 25 30 (demo_upload false false) demo_world).
    + reflexivity.
    + simpl. lia.
    + right. reflexivity.
  - apply (transcribe_duration_failure_cleanup demo_uuid demo_path (demo_duration 0)
             (demo_speech "hello") demo_llm 0 25 30 (demo_upload false false)
             (mkWorld [] ["/uploads/a1"] [] [] 100%Z 0 [])).
    + reflexivity.
    + simpl. lia.
    + left. reflexivity.
Defined.

(** C8, on [a1]: a first Retranscribe with [base] completes, and a second
    one returns the same transcription and leaves the world as it was. *)
Lemma retranscribe_idempotent_witness :
  exists d1 w1,
    retranscribe_execute demo_uuid (demo_speech "hello") demo_llm 0 "a1" "base" None false
      retr_world = (Ok d1, w1) /\
    dto_status d1 = COMPLETED /\
    retranscribe_execute demo_uuid (demo_speech "hello") demo_llm 0 "a1" "base" (Some "ar") true
      w1 = (Ok d1, w1).
Proof.
  do 2 eexists. split; [vm_compute; reflexivity|]. split; [reflexivity|].
  apply (proj2 (retranscribe_idempotent demo_uuid (demo_speech "hello") demo_llm 0)
           "a1" "base" None (Some "ar") false true retr_world).
  - vm_compute. reflexivity.
  - reflexivity.
Defined.

(** C10, on [a1] with its single transcription [t1]: the audio row and the
    file go. *)
Lemma delete_transcription_cascade_witness :
  exists w',
    delete_transcription_execute "t1" delete_world = (Ok true, w') /\
    trans_rows w' = [] /\ audio_rows w' = [] /\ mem "/uploads/a1" (files w') = false.
Proof.
  exists (mkWorld [] [] [] [] 100%Z 2 []).
  destruct (delete_transcription_cascade "t1" delete_world (mkWorld [] [] [] [] 100%Z 2 [])
              (Ok true) pending_sample demo_audio eq_refl eq_refl eq_refl)
    as (_ & Htr & Hone & _).
  destruct (Hone eq_refl) as [Ha Hf].
  split; [vm_compute; reflexivity|]. split; [exact Htr|]. split; [exact Ha|].
  exact (Hf eq_refl eq_refl).
Defined.

(** Delete of [t1] when [a1] has a second transcription: the audio row and the file stay. *)
Example delete_sibling_keeps_audio :
  delete_transcription_execute "t1" delete_world2 =
  (Ok true, mkWorld ["/uploads/a1"] [] [demo_audio] (skipn 1 (trans_rows delete_world2)) 100%Z 3 []).
Proof. vm_compute. reflexivity. Qed.

(** ** Runs of the further properties on concrete inputs *)

Lemma mark_as_processing_spec_witness :
  is_pending pending_sample = true /\
  exists t', mark_as_processing pending_sample = Ok t' /\ is_in_progress t' = true.
Proof.
  split; [reflexivity|].
  destruct (proj1 (mark_as_processing_spec pending_sample) eq_refl) as (t' & E & P & _).
  exists t'. split; assumption.
Defined.

Lemma llm_enhancement_success_witness :
  exists t1 t2, mark_llm_processing enhance_sample = Ok t1 /\
    complete_llm_enhancement t1 " Hello. " 2 = Ok t2 /\ is_llm_enhanced t2 = true /\
    enhanced_text t2 = Some "Hello.".
Proof.
  destruct (llm_enhancement_success enhance_sample " Hello. " 2)
    as (t1 & t2 & E1 & E2 & L & T & _); [reflexivity | vm_compute; discriminate |].
  exists t1, t2. repeat split; assumption.
Defined.

Lemma llm_enhancement_retry_witness :
  exists t1 t2, mark_llm_processing enhance_sample = Ok t1 /\
    fail_llm_enhancement t1 " timeout " = Ok t2 /\ can_be_enhanced t2 = true /\
    llm_error_message t2 = Some "timeout".
Proof.
  destruct (llm_enhancement_retry enhance_sample " timeout ")
    as (t1 & t2 & E1 & E2 & C & _ & _ & M); [reflexivity | vm_compute; discriminate |].
  exists t1, t2. repeat split; assumption.
Defined.

Lemma complete_llm_enhancement_guard_witness :
  exists e, complete_llm_enhancement enhance_sample "Hello." 2 = Raise e /\ exn_kind e = ValueError.
Proof. apply complete_llm_enhancement_guard. left. discriminate. Defined.

Lemma validate_iff_witness : validate 25 30 demo_audio = Ok true.
Proof.
  apply (proj2 (proj1 (validate_iff 25 30 demo_audio))).
  split; [cbn; tauto|]. split; [cbn; lia|]. split; vm_compute; [reflexivity | discriminate].
Defined.

Lemma storage_save_delete_witness :
  exists w2, storage_delete "/uploads/a1" (snd (storage_save demo_path [Byte.x00] "a1" "clip.wav" demo_world))
             = (Ok true, w2) /\ storage_exists "/uploads/a1" w2 = (Ok false, w2).
Proof.
  destruct (proj1 (proj2 (proj2 (storage_save_delete demo_path [Byte.x00] "a1" "clip.wav" demo_world)))
              eq_refl) as (w2 & E & X & _).
  exists w2. split; assumption.
Defined.

Lemma trans_create_get_witness :
  exists w', trans_create pending_sample demo_world = (Ok (to_row pending_sample), w') /\
    fst (trans_get_by_id "t1" w') = Ok (Some (to_row pending_sample)).
Proof.
  destruct (proj1 (trans_create_get pending_sample demo_world)) as (w' & E & _ & G & _).
  - intros r [].
  - exists w'. split; assumption.
Defined.

Lemma trans_update_get_witness :
  exists w', trans_update completed_sample pending_world = (Ok (update_row pending_sample completed_sample), w') /\
    status (update_row pending_sample completed_sample) = COMPLETED.
Proof.
  destruct (proj2 (trans_update_get completed_sample pending_world) pending_sample eq_refl)
    as (w' & E & _ & _ & _ & _ & _ & S & _).
  exists w'. split; assumption.
Defined.

Lemma audio_repository_spec_witness :
  exists w', audio_create demo_audio demo_world = (Ok demo_audio, w') /\
    fst (audio_get_by_id "a1" w') = Ok (Some demo_audio).
Proof.
  destruct (proj1 (audio_repository_spec demo_audio "a1" demo_world)) as (w' & E & _ & G).
  - intros r [].
  - exists w'. split; assumption.
Defined.

Lemma get_transcription_spec_witness :
  exists d, get_transcription_execute "t1" delete_world = (Ok (Some d), delete_world) /\
    dn_audio_file_original_filename d = Some "clip.wav".
Proof.
  destruct (proj2 (get_transcription_spec "t1" delete_world) pending_sample eq_refl)
    as (d & E & _ & F & _).
  exists d. split; assumption.
Defined.

Lemma get_audio_file_transcriptions_spec_witness :
  exists ts, get_audio_file_transcriptions_execute "a1" delete_world2 = (Ok (map from_entity ts), delete_world2) /\
    Permutation ts (trans_rows delete_world2).
Proof.
  destruct (proj2 (get_audio_file_transcriptions_spec "a1" delete_world2) demo_audio eq_refl)
    as (ts & E & P & _).
  exists ts. split; assumption.
Defined.

Lemma delete_audio_file_spec_witness :
  exists w', delete_audio_file_execute "a1" delete_world2 = (Ok tt, w') /\
    trans_rows w' = [] /\ audio_rows w' = [] /\ files w' = ["/uploads/a1"].
Proof.
  apply (delete_audio_file_spec "a1" delete_world2 demo_audio).
  - reflexivity.
  - cbn. constructor; [intros [H|[]]; discriminate|].
    constructor; [intros []|constructor].
Defined.

Lemma unknown_transcription_id_witness :
  (exists e, enhance_execute demo_llm 2 "t9" delete_world = (Raise e, delete_world) /\
             exn_kind e = ValueError) /\
  delete_transcription_execute "t9" delete_world = (Ok false, delete_world) /\
  get_transcription_execute "t9" delete_world = (Ok None, delete_world).
Proof.
  apply unknown_transcription_id. intros r [<-|[]]. discriminate.
Defined.

Lemma unknown_audio_file_id_witness :
  (exists e, retranscribe_execute demo_uuid (demo_speech "hello") demo_llm 0 "a9" "base" None false
               delete_world = (Raise e, delete_world) /\ exn_kind e = ValueError) /\
  (exists e, get_audio_file_transcriptions_execute "a9" delete_world = (Raise e, delete_world) /\
             exn_kind e = ValueError) /\
  (exists e, delete_audio_file_execute "a9" delete_world = (Raise e, delete_world) /\
             exn_kind e = ValueError).
Proof.
  apply unknown_audio_file_id. intros a [<-|[]]. discriminate.
Defined.

Lemma enhance_execute_success_witness :
  exists d w', enhance_execute demo_llm 2 "t1" enhance_world = (Ok d, w') /\
    dto_enhanced_text d = Some "Hello." /\ dto_llm_enhancement_status d = Some "completed" /\
    llm_calls w' = [(Some "hello", Some "en", false)].
Proof.
  destruct (enhance_execute_success demo_llm 2 "t1" enhance_sample "Hello." enhance_world)
    as (d & w' & E & _ & _ & _ & T & P & _ & _ & C & _);
    [reflexivity | reflexivity | reflexivity | vm_compute; discriminate |].
  exists d, w'. split; [exact E|]. split; [exact T|]. split; [exact P|]. exact C.
Defined.

Lemma enhance_execute_llm_failure_witness :
  exists d w', enhance_execute (demo_llm_error " quota exceeded ") 2 "t1" enhance_world = (Ok d, w') /\
    dto_llm_enhancement_status d = Some "failed" /\
    dto_llm_error_message d = Some "quota exceeded".
Proof.
  destruct (enhance_execute_llm_failure (demo_llm_error " quota exceeded ") 2 "t1" enhance_sample
              enhance_world)
    as (d & w' & E & _ & _ & _ & _ & P & M & _);
    [reflexivity | reflexivity | vm_compute; discriminate |].
  exists d, w'. split; [exact E|]. split; [exact P|]. exact M.
Defined.

Lemma transcribe_rejects_invalid_upload_witness :
  exists e, transcribe_execute demo_uuid demo_path (demo_duration 10) (demo_speech "hello") demo_llm 0
      25 30 (mkAudioUploadDTO "notes.txt" [Byte.x00] 1000%Z "text/plain" None None false false false)
      demo_world = (Raise e, set_seed demo_world 1) /\ exn_kind e = ValueError.
Proof. apply transcribe_rejects_invalid_upload. left. reflexivity. Defined.

